(** * Room and session coordinator of the bingo server

    A shallow embedding of [game-manager.ts], [room-manager.ts] and the
    WebSocket message loop of [server.ts], followed by the properties of
    the coordinator that the specification states about them.

    Conventions of the embedding:
    - a JavaScript [number] that holds an integer is a [Z];
    - [Math.random()] is an argument of the function that calls it, a
      rational [r] with [0 <= r < 1]; [v4.generate()] is an argument too;
    - [Date.now()] is the field [now] of the world, moved by [advance];
    - a [Map] whose iteration order the code observes is an association
      list in insertion order ([js_set] keeps the position of a key that
      is already there, as [Map.prototype.set] does); the registries that
      are only looked up by key are [gmap]s;
    - [socket.send] appends to the [outbox] of the world; whether a
      socket is [OPEN] is read from [openSockets];
    - [setTimeout] appends to [timers]; the callbacks run in [advance]. *)

From Stdlib Require Import ZArith QArith Qround Lia.
From stdpp Require Import gmap strings list fin_maps pretty sorting.

Open Scope Z_scope.

(** ** Insertion-ordered maps ([Map<string, V>]) *)

Section JsMap.
Context {V : Type}.

Fixpoint js_get (k : string) (m : list (string * V)) : option V :=
  match m with
  | [] => None
  | (k', v) :: m' => if decide (k' = k) then Some v else js_get k m'
  end.

Fixpoint js_set (k : string) (v : V) (m : list (string * V)) : list (string * V) :=
  match m with
  | [] => [(k, v)]
  | (k', v') :: m' =>
      if decide (k' = k) then (k, v) :: m' else (k', v') :: js_set k v m'
  end.

Fixpoint js_delete (k : string) (m : list (string * V)) : list (string * V) :=
  match m with
  | [] => []
  | (k', v') :: m' =>
      if decide (k' = k) then js_delete k m' else (k', v') :: js_delete k m'
  end.

Definition js_size (m : list (string * V)) : Z := Z.of_nat (length m).

Definition js_values (m : list (string * V)) : list V := m.*2.

Definition js_keys (m : list (string * V)) : list string := m.*1.
End JsMap.

(** A WebSocket is known by its identity only. *)
Definition Socket := nat.

(** JavaScript truthiness of an optional string: [undefined] and the
    empty string are falsy. *)
Definition truthy (o : option string) : option string :=
  match o with
  | Some s => if decide (s = ""%string) then None else Some s
  | None => None
  end.

(** ** game-manager.ts *)

Module GameManager.

Record Player := mkPlayer {
  id : string;
  name : string;
  socket : Socket;
  isReady : bool;
  score : Z;
  board : list Z;
  markedNumbers : list Z;
  joinedAt : Z
}.

Record t := mk {
  onlinePlayers : gmap string Player;
  totalPlayers : Z;
  activeGames : Z;
  totalRoomsCreated : Z
}.

Definition init : t := mk ∅ 0 0 0.

Definition incrementRoomsCount (g : t) : t :=
  mk (onlinePlayers g) (totalPlayers g) (activeGames g) (totalRoomsCreated g + 1).

Definition addPlayer (p : Player) (g : t) : t :=
  mk (<[id p := p]> (onlinePlayers g)) (totalPlayers g + 1)
     (activeGames g) (totalRoomsCreated g).

Definition removePlayer (playerId : string) (g : t) : t :=
  mk (delete playerId (onlinePlayers g)) (totalPlayers g)
     (activeGames g) (totalRoomsCreated g).

(** The [switch] of [generateRandomNumber]. *)
Definition maxNumber (gameType : string) : Z :=
  if decide (gameType = "75ball"%string) then 75
  else if decide (gameType = "pattern"%string) then 75
  else if decide (gameType = "90ball"%string) then 90
  else if decide (gameType = "30ball"%string) then 30
  else 75.

(** [Math.floor(Math.random() * n)] *)
Definition randomBelow (r : Q) (n : Z) : Z := Qfloor (r * inject_Z n).

Definition letters : list string := ["B"; "I"; "N"; "G"; "O"]%string.

(** [letters[i]]: out of range reads [undefined], which the template
    literal prints as such. *)
Definition letterAt (i : Z) : string :=
  if i <? 0 then "undefined"%string
  else nth (Z.to_nat i) letters "undefined"%string.

Definition generateRandomNumber (gameType : string) (r : Q) : Z * string :=
  let number := randomBelow r (maxNumber gameType) + 1 in
  let display :=
    if decide (gameType = "75ball"%string ∨ gameType = "pattern"%string) then
      let column := (number - 1) / 15 in
      let letter := letterAt (Z.min column 4) in
      (letter +:+ "-" +:+ pretty number)%string
    else pretty number in
  (number, display).

(** [Math.floor(pot * 0.8)] on an integral pot, in exact arithmetic.
    [Double.calculatePrize] below has the two roundings of the code;
    they show from a pot of about [2^51] on. *)
Definition calculatePrize (stake playerCount : Z) : Z :=
  let pot := stake * playerCount in
  Qfloor (inject_Z pot * (8 # 10)).

Definition patterns : list string :=
  ["row"; "column"; "diagonal"; "four-corners"; "full-house";
   "one-line"; "two-lines"; "x-pattern"; "frame"]%string.

(** [patterns.includes(pattern)]; the pattern of the message may be
    [undefined]. *)
Definition includes (pattern : option string) : bool :=
  match pattern with
  | Some p => bool_decide (p ∈ patterns)
  | None => false
  end.

(** [verifyWin] reads neither the state of the manager nor the room:
    it is a function of its arguments, and only of [pattern]. *)
Definition verifyWin (playerId pattern : option string) (roomCode : string)
  : bool * Z :=
  if includes pattern then
    let amount := calculatePrize 100 10 in
    (true, amount)
  else (false, 0).

End GameManager.

(** ** room-manager.ts: data *)

Record Player := mkPlayer {
  p_id : string;
  p_name : string;
  p_socket : Socket;
  p_isHost : bool;
  p_isReady : bool;
  p_score : Z
}.

Record Settings := mkSettings {
  autoCallNumbers : bool;
  callInterval : Z;
  winPatterns : list string
}.

Record Room := mkRoom {
  r_id : string;
  r_code : string;
  r_name : string;
  r_hostId : string;
  r_hostName : string;
  r_gameType : string;
  r_stake : Z;
  r_maxPlayers : Z;
  r_players : list (string * Player);
  r_gameStarted : bool;
  r_createdAt : Z;
  r_settings : Settings
}.

Definition set_players (ps : list (string * Player)) (r : Room) : Room :=
  mkRoom (r_id r) (r_code r) (r_name r) (r_hostId r) (r_hostName r)
         (r_gameType r) (r_stake r) (r_maxPlayers r) ps
         (r_gameStarted r) (r_createdAt r) (r_settings r).

Definition set_host (hostId hostName : string) (r : Room) : Room :=
  mkRoom (r_id r) (r_code r) (r_name r) hostId hostName
         (r_gameType r) (r_stake r) (r_maxPlayers r) (r_players r)
         (r_gameStarted r) (r_createdAt r) (r_settings r).

Definition set_gameStarted (b : bool) (r : Room) : Room :=
  mkRoom (r_id r) (r_code r) (r_name r) (r_hostId r) (r_hostName r)
         (r_gameType r) (r_stake r) (r_maxPlayers r) (r_players r)
         b (r_createdAt r) (r_settings r).

Definition set_settings (s : Settings) (r : Room) : Room :=
  mkRoom (r_id r) (r_code r) (r_name r) (r_hostId r) (r_hostName r)
         (r_gameType r) (r_stake r) (r_maxPlayers r) (r_players r)
         (r_gameStarted r) (r_createdAt r) s.

Definition set_isHost (b : bool) (p : Player) : Player :=
  mkPlayer (p_id p) (p_name p) (p_socket p) b (p_isReady p) (p_score p).

(** ** Outbound messages *)

(** A field copied from the inbound message is optional, as the message
    may lack it. *)
Inductive Message :=
| welcome (playerId code name hostId gameType : string) (stake maxPlayers : Z)
| playerJoined (playerId playerName : string) (timestamp totalPlayers : Z)
| playerLeft (playerId : string) (playerName : option string) (timestamp : Z)
             (reason : option string)
| chat (playerId playerName message : option string) (timestamp : Z)
| gameStarted (gameType : string) (board : list Z) (timestamp : Z)
| numberCalled (number : Z) (display : string) (caller : option string)
               (timestamp : Z)
| playerMarked (playerId playerName : option string) (number : option Z)
               (timestamp : Z)
| winner (playerId playerName pattern : option string) (amount timestamp : Z)
| pong (timestamp : Z)
| playerReady (playerId playerName : option string) (ready : option bool)
              (timestamp : Z)
| settingsUpdated (settings : Settings) (updatedBy : option string)
                  (timestamp : Z)
| newHost (hostId hostName : string) (timestamp : Z)
| error (message : string).

(** ** The state of the process *)

Record World := mkWorld {
  gameManager : GameManager.t;
  rooms : gmap string Room;
  roomCodes : gmap string string;
  timers : list (Z * string);
  now : Z;
  openSockets : list Socket;
  outbox : list (Socket * Message)
}.

Definition set_gameManager (g : GameManager.t) (w : World) : World :=
  mkWorld g (rooms w) (roomCodes w) (timers w) (now w) (openSockets w) (outbox w).

Definition set_rooms (rs : gmap string Room) (w : World) : World :=
  mkWorld (gameManager w) rs (roomCodes w) (timers w) (now w) (openSockets w)
          (outbox w).

Definition set_roomCodes (cs : gmap string string) (w : World) : World :=
  mkWorld (gameManager w) (rooms w) cs (timers w) (now w) (openSockets w)
          (outbox w).

Definition set_timers (ts : list (Z * string)) (w : World) : World :=
  mkWorld (gameManager w) (rooms w) (roomCodes w) ts (now w) (openSockets w)
          (outbox w).

Definition set_now (t : Z) (w : World) : World :=
  mkWorld (gameManager w) (rooms w) (roomCodes w) (timers w) t (openSockets w)
          (outbox w).

(** [socket.send(JSON.stringify(m))] *)
Definition send (s : Socket) (m : Message) (w : World) : World :=
  mkWorld (gameManager w) (rooms w) (roomCodes w) (timers w) (now w)
          (openSockets w) (outbox w ++ [(s, m)]).

(** [socket.readyState === WebSocket.OPEN] *)
Definition isOpen (s : Socket) (w : World) : bool :=
  bool_decide (s ∈ openSockets w).

Definition initialWorld (open : list Socket) : World :=
  mkWorld GameManager.init ∅ ∅ [] 0 open [].


(** ** room-manager.ts: operations *)

Module RoomManager.

Definition words : list string :=
  ["ለምን"; "ቢንጎ"; "አሰፋ"; "ደስታ"; "እድል"; "ሽልማት";
   "ደስተኛ"; "አሸናፊ"; "ቻንስ"; "ጨዋታ"; "ደስ"; "ሆኖ"]%string.

(** [words[Math.floor(Math.random() * words.length)]] *)
Definition randomWord (r : Q) : string :=
  let i := GameManager.randomBelow r (Z.of_nat (length words)) in
  if i <? 0 then "undefined"%string
  else nth (Z.to_nat i) words "undefined"%string.

Definition makeCode (r1 r2 : Q) : string :=
  (randomWord r1 +:+ "-" +:+ randomWord r2)%string.

(** The [do ... while] of [generateRoomCode]. Each round takes two
    draws of [Math.random()] from [rs]; [None] says that the loop is
    still running when the draws supplied are used up. *)
Fixpoint pickCode (rs : list Q) (codes : gmap string string) : option string :=
  match rs with
  | r1 :: r2 :: rs' =>
      let code := makeCode r1 r2 in
      if decide (is_Some (codes !! code)) then pickCode rs' codes
      else Some code
  | _ => None
  end.

Definition generateRoomCode (rs : list Q) (w : World) : option (string * World) :=
  match pickCode rs (roomCodes w) with
  | Some code => Some (code, set_roomCodes (<[code := code]> (roomCodes w)) w)
  | None => None
  end.

(** [patterns[gameType] || patterns['75ball']], for a [gameType] that is
    not the name of an inherited property of the object literal. *)
Definition getWinPatterns (gameType : string) : list string :=
  if decide (gameType = "75ball"%string) then
    ["row"; "column"; "diagonal"; "four-corners"; "full-house"]%string
  else if decide (gameType = "90ball"%string) then
    ["one-line"; "two-lines"; "full-house"]%string
  else if decide (gameType = "30ball"%string) then ["full-house"]%string
  else if decide (gameType = "pattern"%string) then
    ["x-pattern"; "frame"; "postage-stamp"; "small-diamond"]%string
  else ["row"; "column"; "diagonal"; "four-corners"; "full-house"]%string.

Record CreateData := mkCreateData {
  cd_hostName : string;
  cd_roomName : string;
  cd_maxPlayers : Z;
  cd_gameType : string;
  cd_stake : Z
}.

Record CreateResult := mkCreateResult {
  cr_roomCode : string;
  cr_roomId : string;
  cr_playerId : string
}.

(** [createRoom] on a body that is an object; [roomId] and [playerId]
    are the two results of [v4.generate()]. [None]: the call does not
    return (the code loop). The body [null], on which the [try] block
    throws, is [createRoomNull] below. *)
Definition createRoom (roomId playerId : string) (rs : list Q)
    (data : CreateData) (w : World) : option (CreateResult * World) :=
  match generateRoomCode rs w with
  | None => None
  | Some (roomCode, w1) =>
      let room :=
        mkRoom roomId roomCode (cd_roomName data) roomId (cd_hostName data)
               (cd_gameType data) (cd_stake data) (cd_maxPlayers data)
               [] false (now w1)
               (mkSettings true 7000 (getWinPatterns (cd_gameType data))) in
      let w2 := set_rooms (<[roomCode := room]> (rooms w1)) w1 in
      let w3 := set_gameManager
                  (GameManager.incrementRoomsCount (gameManager w2)) w2 in
      Some (mkCreateResult roomCode roomId playerId, w3)
  end.

Inductive JoinResult :=
| JoinFailure (message : string)
| JoinSuccess (playerId roomName hostName : string) (maxPlayers : Z)
              (gameType : string) (stake currentPlayers : Z)
              (settings : Settings).

(** [joinRoom]; [playerId] is the result of [v4.generate()]. The world
    is returned as well, to state what the call does to it. *)
Definition joinRoom (playerId : string) (roomCode : string) (w : World)
    : JoinResult * World :=
  match rooms w !! roomCode with
  | None => (JoinFailure "Room not found", w)
  | Some room =>
      if js_size (r_players room) >=? r_maxPlayers room then
        (JoinFailure "Room is full", w)
      else if r_gameStarted room then
        (JoinFailure "Game has already started", w)
      else
        (JoinSuccess playerId (r_name room) (r_hostName room)
                     (r_maxPlayers room) (r_gameType room) (r_stake room)
                     (js_size (r_players room) + 1) (r_settings room), w)
  end.

Definition addPlayerToRoom (roomCode playerId : string) (socket : Socket)
    (playerName : string) (w : World) : World :=
  match rooms w !! roomCode with
  | None => w
  | Some room =>
      let '(isHost, room1) :=
        if js_size (r_players room) =? 0 then
          (true, set_host playerId playerName room)
        else if decide (r_hostId room = playerId) then (true, room)
        else (false, room) in
      let player := mkPlayer playerId playerName socket isHost false 0 in
      let room2 := set_players (js_set playerId player (r_players room1)) room1 in
      let w1 := set_rooms (<[roomCode := room2]> (rooms w)) w in
      set_gameManager
        (GameManager.addPlayer
           (GameManager.mkPlayer playerId playerName socket false 0 [] []
                                 (now w1))
           (gameManager w1)) w1
  end.

(** The private [broadcastToRoom] of the room manager: every player of
    the room whose socket is open, in the order of the map. *)
Definition broadcastToRoom (roomCode : string) (message : Message)
    (w : World) : World :=
  match rooms w !! roomCode with
  | None => w
  | Some room =>
      foldl (fun w' (player : Player) =>
               if isOpen (p_socket player) w'
               then send (p_socket player) message w' else w')
            w (js_values (r_players room))
  end.

(** [newHost.isHost = true] on the first value of the map. *)
Definition markFirstHost (ps : list (string * Player)) : list (string * Player) :=
  match ps with
  | [] => []
  | (k, p) :: ps' => (k, set_isHost true p) :: ps'
  end.

(** The delay of the eviction check, in milliseconds. *)
Definition evictionDelay : Z := 300000.

Definition removePlayerFromRoom (roomCode playerId : string) (w : World) : World :=
  match rooms w !! roomCode with
  | None => w
  | Some room =>
      let room1 := set_players (js_delete playerId (r_players room)) room in
      let w1 := set_rooms (<[roomCode := room1]> (rooms w)) w in
      let w2 := set_gameManager
                  (GameManager.removePlayer playerId (gameManager w1)) w1 in
      let '(room3, w3) :=
        if bool_decide (playerId = r_hostId room1)
           && (js_size (r_players room1) >? 0) then
          match js_values (r_players room1) with
          | host' :: _ =>
              let room2 :=
                set_host (p_id host') (p_name host')
                         (set_players (markFirstHost (r_players room1)) room1) in
              let w' := set_rooms (<[roomCode := room2]> (rooms w2)) w2 in
              (room2,
               broadcastToRoom roomCode
                 (newHost (p_id host') (p_name host') (now w')) w')
          | [] => (room1, w2)
          end
        else (room1, w2) in
      if js_size (r_players room3) =? 0 then
        set_timers (timers w3 ++ [(now w3 + evictionDelay, roomCode)]) w3
      else w3
  end.

Definition getRoom (roomCode : string) (w : World) : option Room :=
  rooms w !! roomCode.

(** The callback that [removePlayerFromRoom] hands to [setTimeout]. *)
Definition evictionCheck (roomCode : string) (w : World) : World :=
  match rooms w !! roomCode with
  | Some room =>
      if js_size (r_players room) =? 0 then
        set_roomCodes (delete roomCode (roomCodes w))
                      (set_rooms (delete roomCode (rooms w)) w)
      else w
  | None => w
  end.

End RoomManager.

(** ** Time *)

(** The clock moves to [t] and the callbacks that are due by then run, in
    the order in which they were armed (all have the same delay, so that
    is the order in which they fall due). *)
Definition advance (t : Z) (w : World) : World :=
  let due := filter (fun tm : Z * string => tm.1 <= t) (timers w) in
  let rest := filter (fun tm : Z * string => ¬ tm.1 <= t) (timers w) in
  foldl (fun w' (tm : Z * string) => RoomManager.evictionCheck tm.2 w')
        (set_now (Z.max (now w) t) (set_timers rest w)) due.

(** ** server.ts: the WebSocket message loop *)

Module Server.

Record SettingsPatch := mkSettingsPatch {
  sp_autoCallNumbers : option bool;
  sp_callInterval : option Z;
  sp_winPatterns : option (list string)
}.

(** [{...settings, ...patch}] *)
Definition mergeSettings (s : Settings) (patch : option SettingsPatch) : Settings :=
  match patch with
  | None => s
  | Some p =>
      mkSettings (default (autoCallNumbers s) (sp_autoCallNumbers p))
                 (default (callInterval s) (sp_callInterval p))
                 (default (winPatterns s) (sp_winPatterns p))
  end.

(** A parsed inbound message. *)
Record Data := mkData {
  d_type : string;
  d_playerId : option string;
  d_playerName : option string;
  d_message : option string;
  d_number : option Z;
  d_pattern : option string;
  d_ready : option bool;
  d_settings : option SettingsPatch
}.

(** The variables [playerId] and [playerName] of one connection. *)
Record Conn := mkConn {
  c_playerId : option string;
  c_playerName : string
}.

Definition newConn : Conn := mkConn None "Anonymous".

(** What one message takes from outside the program: a fresh identifier,
    a draw of [Math.random()], and the board that [generateBoard] draws
    (it is sent out and stored nowhere). *)
Record Oracle := mkOracle {
  o_uuid : string;
  o_random : Q;
  o_board : list Z
}.

(** [broadcastToRoom] of the server: the players of the room other than
    [excludePlayerId] whose socket is open, in the order of the map. *)
Definition broadcastToRoom (roomCode : string) (message : Message)
    (excludePlayerId : option string) (w : World) : World :=
  match RoomManager.getRoom roomCode w with
  | None => w
  | Some room =>
      foldl (fun w' (e : string * Player) =>
               if bool_decide (Some e.1 ≠ excludePlayerId)
                  && isOpen (p_socket e.2) w'
               then send (p_socket e.2) message w' else w')
            w (r_players room)
  end.

(** One round of the [for await] loop of [handleWsConnection], for a
    message that parses. *)
Definition handleMessage (socket : Socket) (roomCode : string) (o : Oracle)
    (data : Data) (c : Conn) (w : World) : Conn * World :=
  let type := d_type data in
  if decide (type = "join"%string) then
    let playerId := default (o_uuid o) (truthy (d_playerId data)) in
    let playerName :=
      default ("Player " +:+ String.substring 0 8 playerId)%string
              (truthy (d_playerName data)) in
    let w1 := RoomManager.addPlayerToRoom roomCode playerId socket playerName w in
    let w2 :=
      match RoomManager.getRoom roomCode w1 with
      | Some room =>
          let w' :=
            send socket
                 (welcome playerId (r_code room) (r_name room) (r_hostId room)
                          (r_gameType room) (r_stake room) (r_maxPlayers room))
                 w1 in
          broadcastToRoom roomCode
            (playerJoined playerId playerName (now w')
                          (js_size (r_players room)))
            (Some playerId) w'
      | None => w1
      end in
    (mkConn (Some playerId) playerName, w2)
  else if decide (type = "leave"%string) then
    match truthy (d_playerId data) with
    | Some playerId =>
        let w1 := RoomManager.removePlayerFromRoom roomCode playerId w in
        (c, broadcastToRoom roomCode
              (playerLeft playerId (d_playerName data) (now w1) None) None w1)
    | None => (c, w)
    end
  else if decide (type = "chat"%string) then
    (c, broadcastToRoom roomCode
          (chat (d_playerId data) (d_playerName data) (d_message data) (now w))
          (d_playerId data) w)
  else if decide (type = "startGame"%string) then
    match RoomManager.getRoom roomCode w with
    | Some roomInfo =>
        if bool_decide (Some (r_hostId roomInfo) = d_playerId data)
           && negb (r_gameStarted roomInfo) then
          let w1 := set_rooms (<[roomCode := set_gameStarted true roomInfo]>
                                 (rooms w)) w in
          (c, broadcastToRoom roomCode
                (gameStarted (r_gameType roomInfo) (o_board o) (now w1))
                None w1)
        else (c, w)
    | None => (c, w)
    end
  else if decide (type = "callNumber"%string) then
    match RoomManager.getRoom roomCode w with
    | Some currentRoom =>
        if bool_decide (Some (r_hostId currentRoom) = d_playerId data)
           && r_gameStarted currentRoom then
          let number :=
            GameManager.generateRandomNumber (r_gameType currentRoom)
                                             (o_random o) in
          (c, broadcastToRoom roomCode
                (numberCalled number.1 number.2 (d_playerName data) (now w))
                None w)
        else (c, w)
    | None => (c, w)
    end
  else if decide (type = "markNumber"%string) then
    (c, broadcastToRoom roomCode
          (playerMarked (d_playerId data) (d_playerName data) (d_number data)
                        (now w))
          (d_playerId data) w)
  else if decide (type = "claimWin"%string) then
    let winResult :=
      GameManager.verifyWin (d_playerId data) (d_pattern data) roomCode in
    if winResult.1 then
      let w1 :=
        broadcastToRoom roomCode
          (winner (d_playerId data) (d_playerName data) (d_pattern data)
                  winResult.2 (now w))
          None w in
      match RoomManager.getRoom roomCode w1 with
      | Some roomToEnd =>
          (c, set_rooms (<[roomCode := set_gameStarted false roomToEnd]>
                           (rooms w1)) w1)
      | None => (c, w1)
      end
    else (c, w)
  else if decide (type = "ping"%string) then
    (c, send socket (pong (now w)) w)
  else if decide (type = "playerReady"%string) then
    (c, broadcastToRoom roomCode
          (playerReady (d_playerId data) (d_playerName data) (d_ready data)
                       (now w))
          (d_playerId data) w)
  else if decide (type = "updateSettings"%string) then
    match RoomManager.getRoom roomCode w with
    | Some roomForSettings =>
        if bool_decide (Some (r_hostId roomForSettings) = d_playerId data) then
          let settings :=
            mergeSettings (r_settings roomForSettings) (d_settings data) in
          let w1 := set_rooms (<[roomCode := set_settings settings
                                                 roomForSettings]>
                                 (rooms w)) w in
          (c, broadcastToRoom roomCode
                (settingsUpdated settings (d_playerName data) (now w1))
                None w1)
        else (c, w)
    | None => (c, w)
    end
  else (c, w).

(** A text frame: [None] is one that [JSON.parse] rejects. *)
Definition handleEvent (socket : Socket) (roomCode : string) (o : Oracle)
    (event : option Data) (c : Conn) (w : World) : Conn * World :=
  match event with
  | Some data => handleMessage socket roomCode o data c w
  | None => (c, send socket (error "Invalid message format") w)
  end.

(** The [finally] block: the connection has ended. *)
Definition handleClose (roomCode : string) (c : Conn) (w : World) : World :=
  match truthy (c_playerId c) with
  | Some playerId =>
      let w1 := RoomManager.removePlayerFromRoom roomCode playerId w in
      broadcastToRoom roomCode
        (playerLeft playerId (Some (c_playerName c)) (now w1)
                    (Some "disconnected"%string))
        None w1
  | None => w
  end.

End Server.

(** ** What a broadcast delivers *)

Definition add_outbox (l : list (Socket * Message)) (w : World) : World :=
  mkWorld (gameManager w) (rooms w) (roomCodes w) (timers w) (now w)
          (openSockets w) (outbox w ++ l).

(** The sends of one broadcast: to the players other than [exclude]
    whose socket is open, in the order of the map. *)
Definition deliveries (m : Message) (open : list Socket)
    (exclude : option string) (ps : list (string * Player))
    : list (Socket * Message) :=
  (fun e : string * Player => (p_socket e.2, m))
    <$> filter (fun e : string * Player =>
                  Some e.1 ≠ exclude ∧ p_socket e.2 ∈ open) ps.

(** ** Scenarios *)

(** The numbers that the [numberCalled] messages delivered to socket [s]
    carry, oldest first: the called numbers of the game as a member sees
    them (the server keeps no list of its own). *)
Definition calledNumbersSeenBy (s : Socket) (out : list (Socket * Message)) : list Z :=
  omap (fun e : Socket * Message =>
          match e.2 with
          | numberCalled n _ _ _ => if decide (e.1 = s) then Some n else None
          | _ => None
          end) out.

Definition winnersSeenBy (s : Socket) (out : list (Socket * Message)) : list Message :=
  omap (fun e : Socket * Message =>
          match e.2 with
          | winner _ _ _ _ _ => if decide (e.1 = s) then Some e.2 else None
          | _ => None
          end) out.

Module Scenario.
Import Server.

Definition message (type : string) (playerId : string) : Data :=
  mkData type (Some playerId) (Some playerId) None None None None None.

Definition claimWin (playerId pattern : string) : Data :=
  mkData "claimWin" (Some playerId) (Some playerId) None None (Some pattern)
         None None.

Definition markNumber (playerId : string) (number : Z) : Data :=
  mkData "markNumber" (Some playerId) (Some playerId) None (Some number) None
         None None.

Definition oracle : Oracle := mkOracle "uuid-0" (1 # 2) [].

Definition code : string := RoomManager.makeCode 0 (1 # 12).

(** A room for [maxPlayers] players at stake 100, created at time 0. *)
Definition created (maxPlayers : Z) : World :=
  match RoomManager.createRoom "uuid-room" "uuid-host" [0; 1 # 12]%Q
          (RoomManager.mkCreateData "Hana" "Friday" maxPlayers "75ball" 100)
          (initialWorld [1; 2; 3; 4]%nat) with
  | Some (_, w) => w
  | None => initialWorld []
  end.

(** The message [data] arrives on [socket] at time [t]. *)
Definition at_ (t : Z) (socket : Socket) (data : Data) (w : World) : World :=
  (handleMessage socket code oracle data newConn (advance t w)).2.

(** Four players join a room for four; the host starts the game. *)
Definition lobby : World :=
  at_ 4 4%nat (message "join" "D")
    (at_ 3 3%nat (message "join" "C")
       (at_ 2 2%nat (message "join" "B")
          (at_ 1 1%nat (message "join" "A") (created 4)))).

Definition inProgress : World := at_ 5 1%nat (message "startGame" "A") lobby.

(** The player B claims a row; then the player C claims a column. *)
Definition firstClaim : World := at_ 6 2%nat (claimWin "B" "row") inProgress.

Definition secondClaim : World := at_ 7 3%nat (claimWin "C" "column") firstClaim.

(** Two players join, over their sockets, a room made for one. *)
Definition roomForOne : World :=
  at_ 2 2%nat (message "join" "B") (at_ 1 1%nat (message "join" "A") (created 1)).

(** The player B marks 99 in the lobby, before any game or call. *)
Definition markUncalled : World := at_ 5 2%nat (markNumber "B" 99) lobby.

(** The host calls a number at time [t]; [r] is the draw of
    [Math.random()]. *)
Definition callAt (t : Z) (r : Q) (w : World) : World :=
  (handleMessage 1%nat code (mkOracle "uuid-0" r [])
                 (message "callNumber" "A") newConn (advance t w)).2.

(** The host calls twice; the draws are 0.5 and 0.505. *)
Definition calledTwice : World :=
  callAt 7 (101 # 200) (callAt 6 (1 # 2) inProgress).

(** The players A, B and C join at times 1, 2 and 3. *)
Definition threeJoined : World :=
  at_ 3 3%nat (message "join" "C")
    (at_ 2 2%nat (message "join" "B")
       (at_ 1 1%nat (message "join" "A") (created 4))).

(** Then B sends its join message once more at time 4, and the host A
    leaves at time 5. *)
Definition hostLeft : World :=
  at_ 5 1%nat (message "leave" "A")
    (at_ 4 2%nat (message "join" "B") threeJoined).

(** The room of the scenarios, as the world [w] has it. *)
Definition theRoom (w : World) : Room :=
  default (mkRoom "" "" "" "" "" "" 0 0 [] false 0 (mkSettings false 0 []))
          (rooms w !! code).

(** The player A alone in the room. *)
Definition oneJoined : World := at_ 1 1%nat (message "join" "A") (created 4).

(** The room is emptied twice and joined again each time: A leaves at
    time 2, B joins at 10 and leaves at 20, C joins at 30. *)
Definition rejoined : World :=
  at_ 30 3%nat (message "join" "C")
    (at_ 20 2%nat (message "leave" "B")
       (at_ 10 2%nat (message "join" "B")
          (at_ 2 1%nat (message "leave" "A") oneJoined))).



End Scenario.

(** ** The code space *)

(** Every code that [generateRoomCode] can build. *)
Definition allCodes : list string :=
  a ← RoomManager.words; b ← RoomManager.words; [(a +:+ "-" +:+ b)%string].

(** The draws [i/12], which select the word at index [i]. *)
Definition twelfths : list Q := (fun i : nat => Z.of_nat i # 12) <$> seq 0 12.

(** The room number [req.1] is created; the two draws [req.2] pick its
    code. *)
Definition createWith (w : option World) (req : nat * (Q * Q)) : option World :=
  w ≫= fun w =>
    snd <$> RoomManager.createRoom ("uuid-room-" +:+ pretty req.1)
              ("uuid-host-" +:+ pretty req.1) [req.2.1; req.2.2]
              (RoomManager.mkCreateData "Hana" "Friday" 4 "75ball" 100) w.

(** 144 rooms are created, one for every pair of words. *)
Definition registryFull : option World :=
  foldl createWith (Some (initialWorld []))
        (zip (seq 0 144) (r1 ← twelfths; r2 ← twelfths; [(r1, r2)])).

Definition fullWorld : World := default (initialWorld []) registryFull.

(** ** Emptiness of a room *)

(** [this.rooms.get(roomCode)?.players.size === 0] *)
Definition roomIsEmpty (roomCode : string) (w : World) : bool :=
  match rooms w !! roomCode with
  | Some room => js_size (r_players room) =? 0
  | None => false
  end.

(** A check armed for [roomCode] falls due by [t]. *)
Definition checkDue (roomCode : string) (t : Z) (w : World) : bool :=
  bool_decide
    (roomCode ∈ (filter (fun tm : Z * string => tm.1 <= t) (timers w)).*2).

(** ** game-manager.ts: boards *)

Module Boards.

(** [numbers.add(n)] on a [Set<number>], kept in insertion order. *)
Definition setAdd (n : Z) (numbers : list Z) : list Z :=
  if decide (n ∈ numbers) then numbers else numbers ++ [n].

(** [Math.floor(Math.random() * (max - min + 1)) + min] *)
Definition randomInRange (r : Q) (min max : Z) : Z :=
  GameManager.randomBelow r (max - min + 1) + min.

(** [while (numbers.size < count) numbers.add(...)]: one draw of [rs] a
    round; [None] says that the loop is still running when the draws
    supplied are used up. The draws left over are returned. *)
Fixpoint fill (count min max : Z) (numbers : list Z) (rs : list Q)
    : option (list Z * list Q) :=
  if Z.of_nat (length numbers) <? count then
    match rs with
    | [] => None
    | r :: rs' => fill count min max (setAdd (randomInRange r min max) numbers) rs'
    end
  else Some (numbers, rs).

(** [Array.from(numbers).sort((a, b) => a - b)] *)
Definition sortAscending (numbers : list Z) : list Z := merge_sort Z.le numbers.

Definition columns75 : list (Z * Z) :=
  [(1, 15); (16, 30); (31, 45); (46, 60); (61, 75)].

Definition columns90 : list (Z * Z) :=
  [(1, 10); (11, 20); (21, 30); (31, 40); (41, 50);
   (51, 60); (61, 70); (71, 80); (81, 90)].

(** The [for] loop of [generate75BallBoard], from the column at the head
    of [columns] on. *)
Fixpoint fill75 (columns : list (Z * Z)) (board : list Z) (rs : list Q)
    : option (list Z * list Q) :=
  match columns with
  | [] => Some (board, rs)
  | (min, max) :: columns' =>
      match fill 5 min max [] rs with
      | None => None
      | Some (numbers, rs') =>
          fill75 columns' (board ++ sortAscending numbers) rs'
      end
  end.

Definition generate75BallBoard (rs : list Q) : option (list Z * list Q) :=
  fill75 columns75 [] rs.

(** The [for] loop of [generate90BallBoard]: the first draw of a round
    gives the count of the column. *)
Fixpoint fill90 (columns : list (Z * Z)) (board : list Z) (rs : list Q)
    : option (list Z * list Q) :=
  match columns with
  | [] => Some (board, rs)
  | (min, max) :: columns' =>
      match rs with
      | [] => None
      | r :: rs1 =>
          let count := GameManager.randomBelow r 3 + 1 in
          match fill count min max [] rs1 with
          | None => None
          | Some (numbers, rs') => fill90 columns' (board ++ numbers) rs'
          end
      end
  end.

Definition generate90BallBoard (rs : list Q) : option (list Z * list Q) :=
  fill90 columns90 [] rs.

Definition generate30BallBoard (rs : list Q) : option (list Z * list Q) :=
  match fill 9 1 30 [] rs with
  | None => None
  | Some (numbers, rs') => Some (sortAscending numbers, rs')
  end.

Definition generatePatternBoard (rs : list Q) : option (list Z * list Q) :=
  generate75BallBoard rs.

Definition generateBoard (gameType : string) (rs : list Q)
    : option (list Z * list Q) :=
  if decide (gameType = "75ball"%string) then generate75BallBoard rs
  else if decide (gameType = "90ball"%string) then generate90BallBoard rs
  else if decide (gameType = "30ball"%string) then generate30BallBoard rs
  else if decide (gameType = "pattern"%string) then generatePatternBoard rs
  else generate75BallBoard rs.

(** [GameManager.startGame], the handler of [/api/game/start]: a sample
    board and one more active game, whatever the room. *)
Definition startGame (roomCode : string) (rs : list Q) (g : GameManager.t)
    : option (list Z * GameManager.t) :=
  match generate75BallBoard rs with
  | None => None
  | Some (board, _) =>
      Some (board,
            GameManager.mk (GameManager.onlinePlayers g)
                           (GameManager.totalPlayers g)
                           (GameManager.activeGames g + 1)
                           (GameManager.totalRoomsCreated g))
  end.

End Boards.

(** ** game-manager.ts: the prize in double precision *)

(** The numbers of the code are IEEE 754 doubles, and [calculatePrize]
    multiplies twice. A product of doubles is the exact product rounded
    to 53 significant bits, ties to the even mantissa. The doubles that
    occur here are integers or integral multiples of [2^-52], so they
    are kept as integers, scaled by [2^52] where needed: rounding to 53
    significant bits commutes with the scaling. Overflow to [Infinity]
    (beyond [2^1024]) is not modelled. *)
Module Double.

Definition precision : Z := 53.

(** The natural number [n] rounded to [precision] significant bits. *)
Definition roundNat (n : Z) : Z :=
  let s := Z.log2 n + 1 - precision in
  if s <=? 0 then n
  else
    let q := Z.shiftr n s in
    let r := n - Z.shiftl q s in
    let half := Z.shiftl 1 (s - 1) in
    let q' := if (half <? r) || ((r =? half) && Z.odd q) then q + 1 else q in
    Z.shiftl q' s.

(** Rounding keeps the sign and rounds the magnitude. *)
Definition round (n : Z) : Z := Z.sgn n * roundNat (Z.abs n).

(** The literal [0.8] is the double [fourFifths / 2^52]. *)
Definition fourFifths : Z := 3602879701896397.

(** [calculatePrize] on a stake and a player count that are integers
    and doubles: [pot = stake * playerCount] and
    [Math.floor(pot * 0.8)]. *)
Definition calculatePrize (stake playerCount : Z) : Z :=
  let pot := round (stake * playerCount) in
  Z.shiftr (round (pot * fourFifths)) 52.

End Double.

(** ** room-manager.ts: a game type that is an inherited name *)

(** The names that the object literal of [getWinPatterns] inherits from
    [Object.prototype]. For these [patterns[gameType]] is a function or
    an object, which is truthy and is stored as [winPatterns] in place
    of a list of patterns; [RoomManager.getWinPatterns] describes the
    code for the other strings. *)
Definition inheritedNames : list string :=
  ["constructor"; "hasOwnProperty"; "isPrototypeOf"; "propertyIsEnumerable";
   "toLocaleString"; "toString"; "valueOf"; "__proto__";
   "__defineGetter__"; "__defineSetter__"; "__lookupGetter__";
   "__lookupSetter__"]%string.

(** ** room-manager.ts: a create request whose body is [null] *)

(** [createRoom(null)]. The body of [POST /api/rooms/create] reaches
    [createRoom] as [req.json()] returns it, and [null] is a JSON text.
    The [try] block calls [v4.generate()] and [generateRoomCode()],
    which registers the code, and then throws at [data.roomName]; the
    [catch] answers [{success: false, error}]. No room is stored, no
    room is counted, and the code stays registered. [None]: the call
    does not return (the code loop). *)
Definition createRoomNull (rs : list Q) (w : World) : option (string * World) :=
  RoomManager.generateRoomCode rs w.

(** ** room-manager.ts: [maxPlayers] as the code compares it *)

(** [createRoom] stores [data.maxPlayers] as the request gives it: any
    JSON value, or nothing at all. In [players.size >= maxPlayers] and
    in [players.size < maxPlayers] the value stands for the number that
    it converts to, which may be a fraction or infinite, or for NaN
    ([undefined], an object, a string that is no numeral). *)
Inductive Limit :=
| Finite (x : Q)
| PlusInfinity
| MinusInfinity
| NaN.

(** The integer limit of the rooms of [World]. *)
Definition limitOf (room : Room) : Limit := Finite (inject_Z (r_maxPlayers room)).

(** [size >= maxPlayers] *)
Definition sizeAtLeast (size : Z) (maxPlayers : Limit) : bool :=
  match maxPlayers with
  | Finite x => Qle_bool x (inject_Z size)
  | PlusInfinity => false
  | MinusInfinity => true
  | NaN => false
  end.

(** [size < maxPlayers] *)
Definition sizeBelow (size : Z) (maxPlayers : Limit) : bool :=
  match maxPlayers with
  | Finite x => negb (Qle_bool x (inject_Z size))
  | PlusInfinity => true
  | MinusInfinity => false
  | NaN => false
  end.

(** The two tests of [joinRoom] on a room that exists: the message of
    the failure, or [None] when the join is accepted. *)
Definition joinRefusal (size : Z) (maxPlayers : Limit) (gameStarted : bool)
    : option string :=
  if sizeAtLeast size maxPlayers then Some "Room is full"%string
  else if gameStarted then Some "Game has already started"%string
  else None.

(** The test of [getAvailableRooms]:
    [!room.gameStarted && room.players.size < room.maxPlayers]. *)
Definition listable (size : Z) (maxPlayers : Limit) (gameStarted : bool) : bool :=
  negb gameStarted && sizeBelow size maxPlayers.

(** ** room-manager.ts: the listing of rooms *)

Record RoomSummary := mkRoomSummary {
  rs_code : string;
  rs_name : string;
  rs_host : string;
  rs_players : Z;
  rs_maxPlayers : Z;
  rs_gameType : string;
  rs_stake : Z;
  rs_created : Z
}.

Definition summary (room : Room) : RoomSummary :=
  mkRoomSummary (r_code room) (r_name room) (r_hostName room)
                (js_size (r_players room)) (r_maxPlayers room)
                (r_gameType room) (r_stake room) (r_createdAt room).

(** [!room.gameStarted && room.players.size < room.maxPlayers] at the
    integer limit of the rooms of [World]; [listable] is the test for
    every value that [maxPlayers] may hold. *)
Definition isAvailable (room : Room) : bool :=
  negb (r_gameStarted room) && (js_size (r_players room) <? r_maxPlayers room).

(** [getAvailableRooms]. The rooms come in the order of the [gmap], not
    in the order of creation: what is stated of the listing is stated of
    its members. *)
Definition getAvailableRooms (w : World) : list RoomSummary :=
  summary <$> filter (fun room => isAvailable room = true)
                     (map_to_list (rooms w)).*2.

Definition getRoomCount (w : World) : nat := size (rooms w).

(** ** The events of the process *)

Inductive Event :=
| HttpCreateRoom (roomId playerId : string) (rs : list Q)
                 (data : RoomManager.CreateData)
| HttpCreateRoomNull (rs : list Q)
| HttpJoinRoom (playerId roomCode : string)
| HttpStartGame (roomCode : string) (rs : list Q)
| WsEvent (socket : Socket) (roomCode : string) (o : Server.Oracle)
          (event : option Server.Data) (c : Server.Conn)
| WsClose (roomCode : string) (c : Server.Conn)
| Tick (t : Z)
| Sockets (open : list Socket).

(** The state after one event. A request that does not return leaves the
    state as it is; [Sockets] is the environment opening and closing
    sockets. The variables of a connection are given with its events. *)
Definition step (e : Event) (w : World) : World :=
  match e with
  | HttpCreateRoom roomId playerId rs data =>
      match RoomManager.createRoom roomId playerId rs data w with
      | Some (_, w') => w'
      | None => w
      end
  | HttpCreateRoomNull rs =>
      match createRoomNull rs w with
      | Some (_, w') => w'
      | None => w
      end
  | HttpJoinRoom playerId roomCode =>
      (RoomManager.joinRoom playerId roomCode w).2
  | HttpStartGame roomCode rs =>
      match Boards.startGame roomCode rs (gameManager w) with
      | Some (_, g) => set_gameManager g w
      | None => w
      end
  | WsEvent socket roomCode o event c =>
      (Server.handleEvent socket roomCode o event c w).2
  | WsClose roomCode c => Server.handleClose roomCode c w
  | Tick t => advance t w
  | Sockets open =>
      mkWorld (gameManager w) (rooms w) (roomCodes w) (timers w) (now w) open
              (outbox w)
  end.

(** The state after the events [es], the first of the list first. *)
Definition run (es : list Event) (w : World) : World :=
  foldl (fun w' e => step e w') w es.

(** ** What the invariants say *)

(** The players of a room: no key twice, every player under its own id,
    the host flag on the player that [hostId] names and on no other,
    and, in a room that is not empty, a host that is there. *)
Definition playersOk (room : Room) : Prop :=
  NoDup (js_keys (r_players room))
  ∧ (∀ k p, (k, p) ∈ r_players room →
            p_id p = k ∧ p_isHost p = bool_decide (k = r_hostId room))
  ∧ (r_players room ≠ [] → r_hostId room ∈ js_keys (r_players room)).

(** The registry: a room is stored under its own code, and that code
    is in use; a code in use is registered under itself. A code may be
    in use with no room stored: [createRoom] registers the code before
    it reads its argument. *)
Definition registryOk (w : World) : Prop :=
  ∀ c, (∀ room, rooms w !! c = Some room →
                r_code room = c ∧ roomCodes w !! c = Some c)
       ∧ (∀ v, roomCodes w !! c = Some v → v = c).

(** The presence directory: a player under its own id, as
    [addPlayerToRoom] records it. *)
Definition presenceOk (w : World) : Prop :=
  ∀ k p, GameManager.onlinePlayers (gameManager w) !! k = Some p →
         GameManager.id p = k
         ∧ GameManager.board p = [] ∧ GameManager.markedNumbers p = []
         ∧ GameManager.score p = 0 ∧ GameManager.isReady p = false.

(** The sockets of the players of a room. *)
Definition memberSockets (roomCode : string) (w : World) : list Socket :=
  match rooms w !! roomCode with
  | Some room => p_socket <$> js_values (r_players room)
  | None => []
  end.

(** A column of a board: [count] numbers of the range, ascending. *)
Definition columnOk (count : nat) (range : Z * Z) (column : list Z) : Prop :=
  length column = count
  ∧ StronglySorted Z.lt column
  ∧ Forall (fun n => range.1 <= n <= range.2) column.

(** A column of a 90-ball board: one to three different numbers of the
    range, in the order drawn. *)
Definition column90Ok (range : Z * Z) (column : list Z) : Prop :=
  (1 <= length column <= 3)%nat
  ∧ NoDup column
  ∧ Forall (fun n => range.1 <= n <= range.2) column.

(** A draw of [Math.random()]. *)
Definition unitDraw (r : Q) : Prop := (0 <= r)%Q ∧ (r < 1)%Q.

(** Draws for the sample boards: a column of a 75-ball board from six
    draws, one of them a repeat; a column of a 90-ball board from a
    count and a number; a 30-ball board from ten draws. *)
Definition draws75 : list Q :=
  mjoin (replicate 5 [4 # 15; 0; 4 # 15; 2 # 15; 1 # 15; 3 # 15]%Q).

Definition draws90 : list Q := mjoin (replicate 9 [1 # 3; 1 # 2; 0]%Q).

Definition draws30 : list Q :=
  [29 # 30; 0; 7 # 30; 7 # 30; 1 # 2; 1 # 10; 2 # 10; 3 # 10; 4 # 10; 6 # 10]%Q.

(** The test of [unitDraw]. *)
Definition unitDrawb (r : Q) : bool := Qle_bool 0 r && negb (Qle_bool 1 r).

(** What stays of a room for as long as it lives. *)
Definition sameIdentity (room room' : Room) : Prop :=
  r_id room' = r_id room ∧ r_code room' = r_code room
  ∧ r_name room' = r_name room ∧ r_gameType room' = r_gameType room
  ∧ r_stake room' = r_stake room ∧ r_maxPlayers room' = r_maxPlayers room
  ∧ r_createdAt room' = r_createdAt room.

(** From [w] to [w'] no room is created or removed, every room keeps
    its identity, and the players of a room stay in order if they
    were. *)
Definition roomsEvolve (w w' : World) : Prop :=
  ∀ c, match rooms w !! c with
       | Some room =>
           ∃ room', rooms w' !! c = Some room'
                    ∧ sameIdentity room room'
                    ∧ (playersOk room → playersOk room')
       | None => rooms w' !! c = None
       end.

(** The invariant of the process. *)
Definition Inv (w : World) : Prop :=
  registryOk w ∧ presenceOk w
  ∧ ∀ c room, rooms w !! c = Some room → playersOk room.

(** What a message on [socket] for the room [roomCode], or the end of
    the connection, may do from [w] to [w']. *)
Definition messageStep (socket : Socket) (roomCode : string) (w w' : World)
    : Prop :=
  roomsEvolve w w'
  ∧ (∀ c, c ≠ roomCode → rooms w' !! c = rooms w !! c)
  ∧ roomCodes w' = roomCodes w ∧ now w' = now w
  ∧ openSockets w' = openSockets w
  ∧ (presenceOk w → presenceOk w')
  ∧ (GameManager.totalPlayers (gameManager w)
     <= GameManager.totalPlayers (gameManager w')
     ∧ GameManager.activeGames (gameManager w')
       = GameManager.activeGames (gameManager w)
     ∧ GameManager.totalRoomsCreated (gameManager w')
       = GameManager.totalRoomsCreated (gameManager w))
  ∧ (∃ sent, outbox w' = outbox w ++ sent
             ∧ ∀ e, e ∈ sent →
                    e.1 = socket
                    ∨ (e.1 ∈ openSockets w ∧ e.1 ∈ memberSockets roomCode w'))
  ∧ (∃ armed, timers w' = timers w ++ armed
              ∧ ∀ tm, tm ∈ armed →
                      tm = (now w + RoomManager.evictionDelay, roomCode)).

(** From [w] to [w'] the codes in use and the clock stay, no room is
    created or removed, every room keeps its identity, and every room
    but the one of [roomCode] stays as it is. *)
Definition keepsRooms (roomCode : string) (w w' : World) : Prop :=
  roomCodes w' = roomCodes w ∧ now w' = now w
  ∧ ∀ c, match rooms w !! c with
         | Some room =>
             ∃ room', rooms w' !! c = Some room'
                      ∧ sameIdentity room room'
                      ∧ (c ≠ roomCode → room' = room)
         | None => rooms w' !! c = None
         end.

(** The counters of the statistics and the clock. *)
Definition counters (w : World) : list Z :=
  [GameManager.totalPlayers (gameManager w);
   GameManager.activeGames (gameManager w);
   GameManager.totalRoomsCreated (gameManager w);
   now w].

(** A session: a room is created, A and B join it, A leaves. *)
Definition session : list Event :=
  [HttpCreateRoom "uuid-room" "uuid-host" [0; 1 # 12]%Q
     (RoomManager.mkCreateData "Hana" "Friday" 4 "75ball" 100);
   Sockets [1; 2]%nat;
   Tick 1;
   WsEvent 1%nat Scenario.code Scenario.oracle
           (Some (Scenario.message "join" "A")) Server.newConn;
   Tick 2;
   WsEvent 2%nat Scenario.code Scenario.oracle
           (Some (Scenario.message "join" "B")) Server.newConn;
   Tick 3;
   WsClose Scenario.code (Server.mkConn (Some "A"%string) "A")].

Definition sessionWorld : World := run session (initialWorld []).

Definition sessionRoom : Room := Scenario.theRoom sessionWorld.

(** The state after the first request of the session. *)
Definition firstRoom : World := run (take 1 session) (initialWorld []).

(** The state of the session before A leaves. *)
Definition twoJoined : World := run (take 6 session) (initialWorld []).

(** Then the host A starts the game. *)
Definition twoStarted : World :=
  (Server.handleMessage 1%nat Scenario.code Scenario.oracle
     (Scenario.message "startGame" "A") Server.newConn twoJoined).2.

(** * Properties *)

(** ** Insertion-ordered maps *)

Section JsMapFacts.
Context {V : Type}.
Implicit Types (m : list (string * V)) (k : string) (v : V).

Lemma js_get_set_eq k v m : js_get k (js_set k v m) = Some v.
Proof.
  induction m as [|[k' v'] m IH]; simpl.
  - by rewrite decide_True.
  - destruct (decide (k' = k)) as [->|Hne]; simpl.
    + by rewrite decide_True.
    + by rewrite decide_False.
Qed.

Lemma js_get_set_ne k k' v m : k ≠ k' → js_get k' (js_set k v m) = js_get k' m.
Proof.
  intros Hne. induction m as [|[k0 v0] m IH]; simpl.
  - by rewrite decide_False.
  - destruct (decide (k0 = k)) as [->|Hk0]; simpl.
    + by rewrite !decide_False.
    + destruct (decide (k0 = k')); done.
Qed.

Lemma js_get_delete_eq k m : js_get k (js_delete k m) = None.
Proof.
  induction m as [|[k' v'] m IH]; simpl; [done|].
  destruct (decide (k' = k)); simpl; [done|]. by rewrite decide_False.
Qed.

Lemma js_get_delete_ne k k' m : k ≠ k' → js_get k' (js_delete k m) = js_get k' m.
Proof.
  intros Hne. induction m as [|[k0 v0] m IH]; simpl; [done|].
  destruct (decide (k0 = k)) as [->|Hk0]; simpl.
  - by rewrite decide_False.
  - by rewrite IH.
Qed.

Lemma js_get_None k m : js_get k m = None ↔ k ∉ js_keys m.
Proof.
  unfold js_keys. induction m as [|[k' v'] m IH]; simpl.
  - split; [intros _; apply not_elem_of_nil | done].
  - rewrite not_elem_of_cons. destruct (decide (k' = k)) as [->|Hne].
    + split; [done | intros [? _]; done].
    + rewrite IH. split; [by intros ?; split | by intros [_ ?]].
Qed.

Lemma js_size_nil m : js_size m = 0 ↔ m = [].
Proof.
  unfold js_size. destruct m; simpl; [done|]. split; [lia | done].
Qed.

End JsMapFacts.

(** ** Broadcasts reach the open sockets and touch nothing else *)

Lemma add_outbox_nil w : add_outbox [] w = w.
Proof. destruct w. unfold add_outbox. simpl. by rewrite app_nil_r. Qed.

Lemma add_outbox_app l1 l2 w :
  add_outbox l2 (add_outbox l1 w) = add_outbox (l1 ++ l2) w.
Proof. unfold add_outbox. simpl. by rewrite app_assoc. Qed.

Lemma server_broadcast_fold m ex ps w :
  foldl (fun w' (e : string * Player) =>
           if bool_decide (Some e.1 ≠ ex) && isOpen (p_socket e.2) w'
           then send (p_socket e.2) m w' else w') w ps
  = add_outbox (deliveries m (openSockets w) ex ps) w.
Proof.
  revert w. induction ps as [|e ps IH]; intros w; simpl.
  - by rewrite add_outbox_nil.
  - unfold deliveries. rewrite filter_cons. unfold isOpen at 2.
    destruct (decide (Some e.1 ≠ ex)) as [Hex|Hex].
    + rewrite (bool_decide_eq_true_2 _ Hex). simpl.
      destruct (decide (p_socket e.2 ∈ openSockets w)) as [Ho|Ho].
      * rewrite (bool_decide_eq_true_2 _ Ho), decide_True by done.
        rewrite IH. simpl. unfold deliveries.
        change (send (p_socket e.2) m w) with (add_outbox [(p_socket e.2, m)] w).
        by rewrite add_outbox_app.
      * rewrite (bool_decide_eq_false_2 _ Ho), decide_False by tauto.
        by rewrite IH.
    + rewrite (bool_decide_eq_false_2 _ Hex), decide_False by tauto.
      simpl. by rewrite IH.
Qed.

Lemma server_broadcast_spec code m ex w :
  Server.broadcastToRoom code m ex w =
  match rooms w !! code with
  | Some room => add_outbox (deliveries m (openSockets w) ex (r_players room)) w
  | None => w
  end.
Proof.
  unfold Server.broadcastToRoom, RoomManager.getRoom.
  destruct (rooms w !! code); [|done]. apply server_broadcast_fold.
Qed.

Lemma manager_broadcast_spec code m w :
  RoomManager.broadcastToRoom code m w =
  match rooms w !! code with
  | Some room => add_outbox (deliveries m (openSockets w) None (r_players room)) w
  | None => w
  end.
Proof.
  unfold RoomManager.broadcastToRoom. destruct (rooms w !! code) as [room|]; [|done].
  rewrite <- server_broadcast_fold. unfold js_values.
  generalize (r_players room) w. clear.
  induction l as [|e l IH]; intros w; simpl; [done|].
  apply IH.
Qed.

(** A broadcast changes the outbox only. *)
Lemma server_broadcast_frame code m ex w :
  ∃ l, Server.broadcastToRoom code m ex w = add_outbox l w.
Proof.
  rewrite server_broadcast_spec. destruct (rooms w !! code).
  - eauto.
  - exists []. by rewrite add_outbox_nil.
Qed.

(** ** Win claims *)

(** [verifyWin] accepts exactly the claims that name a known pattern. *)
Lemma verifyWin_valid playerId pattern roomCode :
  (GameManager.verifyWin playerId pattern roomCode).1 = true
  ↔ ∃ p, pattern = Some p ∧ p ∈ GameManager.patterns.
Proof.
  unfold GameManager.verifyWin, GameManager.includes.
  destruct pattern as [p|]; simpl.
  - destruct (bool_decide_reflect (p ∈ GameManager.patterns)) as [Hin|Hin]; simpl.
    + split; [eauto | done].
    + split; [done | intros (q & [= ->] & ?); done].
  - split; [done | intros (q & ? & _); done].
Qed.

(** Every accepted claim carries the same amount. *)
Lemma verifyWin_amount playerId pattern roomCode :
  (GameManager.verifyWin playerId pattern roomCode).1 = true →
  (GameManager.verifyWin playerId pattern roomCode).2 = 800.
Proof.
  unfold GameManager.verifyWin. destruct (GameManager.includes pattern); [|done].
  intros _. reflexivity.
Qed.

(** Two patterns that a room of the pattern variant enables are not
    among the names that [verifyWin] knows: a claim of either is turned
    down, covered or not. *)
Lemma verifyWin_rejects_enabled_patterns playerId roomCode :
  "postage-stamp"%string ∈ RoomManager.getWinPatterns "pattern"
  ∧ "small-diamond"%string ∈ RoomManager.getWinPatterns "pattern"
  ∧ GameManager.verifyWin playerId (Some "postage-stamp"%string) roomCode
    = (false, 0)
  ∧ GameManager.verifyWin playerId (Some "small-diamond"%string) roomCode
    = (false, 0).
Proof.
  split; [|split; [|split]]; [apply (bool_decide_unpack _)..| |];
    vm_compute; done.
Qed.

(** What a claim does: when the pattern is a known name, a winner
    message with the amount 800 goes to every member whose socket is
    open, and the game of the room is over; otherwise nothing happens.
    Neither branch reads a board, a mark, a called number or the state
    of the game. *)
Lemma claimWin_outcome
    (socket : Socket) (roomCode : string) (o : Server.Oracle)
    (c : Server.Conn) (w : World)
    (playerId playerName msg pattern : option string) (number : option Z)
    (ready : option bool) (settings : option Server.SettingsPatch) :
  Server.handleMessage socket roomCode o
    (Server.mkData "claimWin" playerId playerName msg number pattern ready
                   settings) c w
  = (c, if GameManager.includes pattern then
          match rooms w !! roomCode with
          | Some room =>
              let w1 :=
                add_outbox
                  (deliveries (winner playerId playerName pattern 800 (now w))
                              (openSockets w) None (r_players room)) w in
              set_rooms (<[roomCode := set_gameStarted false room]> (rooms w1))
                        w1
          | None => w
          end
        else w).
Proof.
  unfold Server.handleMessage, GameManager.verifyWin. simpl.
  destruct (GameManager.includes pattern); [|done]. simpl.
  rewrite server_broadcast_spec. unfold RoomManager.getRoom.
  destruct (rooms w !! roomCode) as [room|] eqn:Hroom; simpl.
  - rewrite Hroom. done.
  - rewrite Hroom. done.
Qed.

(** C1, at an input where the code departs from it. The game of the room
    is in progress, no number has been called, and the board and the
    marked numbers that the server holds for the player B are empty: no
    row of B is covered. B claims a row, and the claim is accepted: the
    winner message goes out to the four members. *)
Theorem claimWin_accepted_without_coverage :
  let w := Scenario.inProgress in
  r_gameStarted <$> rooms w !! Scenario.code = Some true
  ∧ GameManager.onlinePlayers (gameManager w) !! "B"%string
    = Some (GameManager.mkPlayer "B" "B" 2%nat false 0 [] [] 2)
  ∧ calledNumbersSeenBy 2%nat (outbox w) = []
  ∧ outbox Scenario.firstClaim
    = outbox w
      ++ ((fun s : Socket =>
             (s, winner (Some "B") (Some "B") (Some "row") 800 6)%string)
            <$> [1; 2; 3; 4]%nat).
Proof. vm_compute. done. Qed.

(** C2, at an input where the code departs from it. The claim of B was
    accepted and the room is back in the lobby; no game has started
    since. The claim of C that follows is accepted too: every member
    receives a second winner message, and no rejection is sent. *)
Theorem second_claimWin_accepted :
  r_gameStarted <$> rooms Scenario.firstClaim !! Scenario.code = Some false
  ∧ winnersSeenBy 1%nat (outbox Scenario.firstClaim)
    = [winner (Some "B") (Some "B") (Some "row") 800 6]%string
  ∧ winnersSeenBy 1%nat (outbox Scenario.secondClaim)
    = [winner (Some "B") (Some "B") (Some "row") 800 6;
       winner (Some "C") (Some "C") (Some "column") 800 7]%string
  ∧ outbox Scenario.secondClaim
    = outbox Scenario.firstClaim
      ++ ((fun s : Socket =>
             (s, winner (Some "C") (Some "C") (Some "column") 800 7)%string)
            <$> [1; 2; 3; 4]%nat).
Proof. vm_compute. done. Qed.

(** C3, at an input where the code departs from it. In a room with
    stake 100 that holds four players, the amount of the winner message
    is 800, the prize of ten players at stake 100, where the prize of
    the room is 320. *)
Theorem winner_amount_ignores_room :
  (r_stake <$> rooms Scenario.inProgress !! Scenario.code = Some 100
   ∧ js_size <$> (r_players <$> rooms Scenario.inProgress !! Scenario.code)
     = Some 4)
  ∧ GameManager.calculatePrize 100 4 = 320
  ∧ winnersSeenBy 1%nat (outbox Scenario.firstClaim)
    = [winner (Some "B") (Some "B") (Some "row") 800 6]%string.
Proof. vm_compute. done. Qed.

(** ** Joining *)

Lemma js_set_length_absent {V} (k : string) (v : V) (m : list (string * V)) :
  js_get k m = None → js_size (js_set k v m) = js_size m + 1.
Proof.
  unfold js_size. induction m as [|[k' v'] m IH]; simpl; [done|].
  destruct (decide (k' = k)); [done|]. intros Hm. simpl.
  specialize (IH Hm). lia.
Qed.

(** [addPlayerToRoom] inserts a new player whatever the capacity. *)
Lemma addPlayerToRoom_grows roomCode playerId socket playerName w room :
  rooms w !! roomCode = Some room →
  js_get playerId (r_players room) = None →
  ∃ room',
    rooms (RoomManager.addPlayerToRoom roomCode playerId socket playerName w)
      !! roomCode = Some room'
    ∧ js_size (r_players room') = js_size (r_players room) + 1
    ∧ r_maxPlayers room' = r_maxPlayers room.
Proof.
  intros Hroom Hnew. unfold RoomManager.addPlayerToRoom. rewrite Hroom.
  destruct (js_size (r_players room) =? 0);
    [|destruct (decide (r_hostId room = playerId))];
    simpl; rewrite lookup_insert_eq; eexists; (split; [done|]); simpl;
    by rewrite js_set_length_absent.
Qed.

(** The HTTP join refuses a room that is full. *)
Lemma joinRoom_full playerId roomCode w room :
  rooms w !! roomCode = Some room →
  r_maxPlayers room <= js_size (r_players room) →
  RoomManager.joinRoom playerId roomCode w
  = (RoomManager.JoinFailure "Room is full", w).
Proof.
  intros Hroom Hfull. unfold RoomManager.joinRoom. rewrite Hroom.
  destruct (Z.geb_spec (js_size (r_players room)) (r_maxPlayers room));
    [done | lia].
Qed.

(** C5, at an input where the code departs from it. A room is made for
    one player. The player A joins over a socket; from then on the HTTP
    join answers that the room is full. The player B joins over a socket
    all the same, and the room holds two players. *)
Theorem ws_join_overfills_room :
  let one := Scenario.at_ 1 1%nat (Scenario.message "join" "A")
                          (Scenario.created 1) in
  (r_maxPlayers <$> rooms one !! Scenario.code = Some 1
   ∧ js_keys <$> (r_players <$> rooms one !! Scenario.code)
     = Some ["A"%string])
  ∧ (RoomManager.joinRoom "uuid-1" Scenario.code one).1
    = RoomManager.JoinFailure "Room is full"
  ∧ r_maxPlayers <$> rooms Scenario.roomForOne !! Scenario.code = Some 1
  ∧ js_keys <$> (r_players <$> rooms Scenario.roomForOne !! Scenario.code)
    = Some ["A"; "B"]%string.
Proof. vm_compute. done. Qed.

(** C10. The HTTP join leaves the whole state as it was, the room with
    its players and its host included; on success it answers with the
    identifier generated for the call and with the name, host name,
    capacity, game type, stake and settings of the room, counting the
    caller among the players. The player enters the players of the room
    when the join message carrying that identifier is handled. *)
Theorem http_join_leaves_room_untouched
    (playerId roomCode : string) (w : World) (room : Room)
    (socket : Socket) (o : Server.Oracle) (c : Server.Conn)
    (playerName msg pattern : option string) (number : option Z)
    (ready : option bool) (settings : option Server.SettingsPatch) :
  rooms w !! roomCode = Some room →
  playerId ≠ ""%string →
  let answer := RoomManager.joinRoom playerId roomCode w in
  let joined :=
    (Server.handleMessage socket roomCode o
       (Server.mkData "join" (Some playerId) playerName msg number pattern
                      ready settings) c answer.2).2 in
  answer.2 = w
  ∧ rooms answer.2 !! roomCode = Some room
  ∧ (js_size (r_players room) < r_maxPlayers room →
     r_gameStarted room = false →
     answer.1 = RoomManager.JoinSuccess playerId (r_name room)
                  (r_hostName room) (r_maxPlayers room) (r_gameType room)
                  (r_stake room) (js_size (r_players room) + 1)
                  (r_settings room))
  ∧ ∃ room' player,
      rooms joined !! roomCode = Some room'
      ∧ js_get playerId (r_players room') = Some player
      ∧ p_id player = playerId ∧ p_socket player = socket.
Proof.
  intros Hroom Hid answer joined.
  assert (Hframe : answer.2 = w).
  { unfold answer, RoomManager.joinRoom. rewrite Hroom.
    by repeat case_match. }
  split; [done|]. split; [by rewrite Hframe|]. split.
  - intros Hsize Hlobby. unfold answer, RoomManager.joinRoom.
    rewrite Hroom, Hlobby.
    destruct (Z.geb_spec (js_size (r_players room)) (r_maxPlayers room));
      [lia | done].
  - unfold joined. rewrite Hframe. unfold Server.handleMessage. simpl.
    rewrite decide_False by done. simpl.
    unfold RoomManager.getRoom.
    set (w1 := RoomManager.addPlayerToRoom _ _ _ _ _).
    assert (Hw1 : ∃ room' player,
               rooms w1 !! roomCode = Some room'
               ∧ js_get playerId (r_players room') = Some player
               ∧ p_id player = playerId ∧ p_socket player = socket).
    { unfold w1, RoomManager.addPlayerToRoom. rewrite Hroom.
      destruct (js_size (r_players room) =? 0);
        [|destruct (decide (r_hostId room = playerId))];
        simpl; rewrite lookup_insert_eq; do 2 eexists;
        (split; [done|]); simpl; rewrite js_get_set_eq; done. }
    destruct Hw1 as (room' & player & Hroom' & Hget & Hpid & Hsock).
    rewrite Hroom'. rewrite server_broadcast_spec. simpl.
    rewrite Hroom'. simpl. eauto 10.
Qed.

(** The theorem at the room that A has joined, for the identifier
    uuid-1. *)
Lemma http_join_leaves_room_untouched_witness :
  rooms Scenario.oneJoined !! Scenario.code
  = Some (Scenario.theRoom Scenario.oneJoined)
  ∧ (RoomManager.joinRoom "uuid-1" Scenario.code Scenario.oneJoined).2
    = Scenario.oneJoined
  ∧ (RoomManager.joinRoom "uuid-1" Scenario.code Scenario.oneJoined).1
    = RoomManager.JoinSuccess "uuid-1" "Friday" "A" 4 "75ball" 100 2
        (mkSettings true 7000
           ["row"; "column"; "diagonal"; "four-corners"; "full-house"]%string).
Proof.
  assert (rooms Scenario.oneJoined !! Scenario.code
          = Some (Scenario.theRoom Scenario.oneJoined)) as Hroom
    by (vm_compute; reflexivity).
  assert ("uuid-1"%string ≠ ""%string) as Hid by discriminate.
  destruct (http_join_leaves_room_untouched
              "uuid-1" Scenario.code Scenario.oneJoined
              (Scenario.theRoom Scenario.oneJoined) 2%nat Scenario.oracle
              Server.newConn None None None None None None Hroom Hid)
    as (Hframe & _ & Hanswer & _).
  split; [exact Hroom|]. split; [exact Hframe|].
  rewrite Hanswer; [vm_compute; reflexivity | vm_compute; reflexivity
                   | vm_compute; reflexivity].
Defined.

(** ** Marking *)

(** C7 as stated fails. In the lobby, where no number has been called,
    the player B marks 99: the mark is relayed to the three other
    members as a playerMarked message, and nothing is sent to B. *)
Lemma markNumber_uncalled_is_broadcast :
  calledNumbersSeenBy 1%nat (outbox Scenario.lobby) = []
  ∧ outbox Scenario.markUncalled
    = outbox Scenario.lobby
      ++ ((fun s : Socket =>
             (s, playerMarked (Some "B") (Some "B") (Some 99) 5)%string)
            <$> [1; 3; 4]%nat).
Proof. vm_compute. done. Qed.

(** C7, amended. A markNumber action is relayed whatever its number:
    every member of the room other than the sender whose socket is open
    receives a playerMarked message with the number as sent. The action
    changes nothing but the outbox: the rooms, and the players that the
    game manager holds with their marked numbers, stay as they were. *)
Theorem markNumber_is_relayed
    (socket : Socket) (roomCode : string) (o : Server.Oracle)
    (c : Server.Conn) (w : World)
    (playerId playerName msg pattern : option string) (number : option Z)
    (ready : option bool) (settings : option Server.SettingsPatch) :
  let r := Server.handleMessage socket roomCode o
             (Server.mkData "markNumber" playerId playerName msg number
                            pattern ready settings) c w in
  r.1 = c
  ∧ r.2 = match rooms w !! roomCode with
          | Some room =>
              add_outbox
                (deliveries (playerMarked playerId playerName number (now w))
                            (openSockets w) playerId (r_players room)) w
          | None => w
          end
  ∧ rooms r.2 = rooms w
  ∧ gameManager r.2 = gameManager w.
Proof.
  unfold Server.handleMessage. simpl. rewrite server_broadcast_spec.
  split; [done|]. split; [done|]. by destruct (rooms w !! roomCode).
Qed.

(** ** Calling numbers *)

Lemma randomBelow_range (r : Q) (n : Z) :
  (0 <= r)%Q → (r < 1)%Q → 0 < n →
  0 <= GameManager.randomBelow r n < n.
Proof.
  intros Hr0 Hr1 Hn. unfold GameManager.randomBelow. split.
  - change 0 with (Qfloor 0). apply Qfloor_resp_le.
    apply Qmult_le_0_compat; [done|].
    change 0%Q with (inject_Z 0). rewrite <- Zle_Qle. lia.
  - rewrite Zlt_Qlt. eapply Qle_lt_trans; [apply Qfloor_le|].
    rewrite <- (Qmult_1_l (inject_Z n)) at 2.
    apply Qmult_lt_compat_r; [|done].
    change 0%Q with (inject_Z 0). rewrite <- Zlt_Qlt. lia.
Qed.

Lemma maxNumber_values (gameType : string) :
  GameManager.maxNumber gameType = 75
  ∨ GameManager.maxNumber gameType = 90
  ∨ GameManager.maxNumber gameType = 30.
Proof. unfold GameManager.maxNumber. repeat case_decide; auto. Qed.

Lemma generateRandomNumber_range (gameType : string) (r : Q) :
  (0 <= r)%Q → (r < 1)%Q →
  1 <= (GameManager.generateRandomNumber gameType r).1
    <= GameManager.maxNumber gameType.
Proof.
  intros Hr0 Hr1. unfold GameManager.generateRandomNumber. simpl.
  assert (0 < GameManager.maxNumber gameType)
    by (destruct (maxNumber_values gameType) as [->|[->| ->]]; lia).
  pose proof (randomBelow_range r _ Hr0 Hr1 H). lia.
Qed.

(** C4 as stated fails. The host calls twice in one game, and the draws
    of [Math.random()] are 0.5 and 0.505: every member is sent 38 twice,
    so the second number drawn was already among the called numbers. *)
Lemma callNumber_repeats_a_number :
  calledNumbersSeenBy 2%nat (outbox Scenario.inProgress) = []
  ∧ calledNumbersSeenBy 2%nat (outbox Scenario.calledTwice) = [38; 38]
  ∧ ¬ NoDup (calledNumbersSeenBy 2%nat (outbox Scenario.calledTwice)).
Proof.
  split; [by vm_compute|]. split; [by vm_compute|].
  apply (bool_decide_unpack _). vm_compute. exact I.
Qed.

(** C4, amended. When the host calls a number in a room whose game is in
    progress, the draw always yields a number, and the number lies in
    the range of the variant, from 1 to 75, 90 or 30. The draw reads no
    earlier draw and the call changes nothing but the outbox, where the
    numberCalled message goes to every member whose socket is open. *)
Theorem callNumber_draws_in_range
    (socket : Socket) (roomCode : string) (o : Server.Oracle)
    (c : Server.Conn) (w : World) (room : Room)
    (playerName msg pattern : option string) (number : option Z)
    (ready : option bool) (settings : option Server.SettingsPatch) :
  rooms w !! roomCode = Some room →
  r_gameStarted room = true →
  (0 <= Server.o_random o)%Q → (Server.o_random o < 1)%Q →
  let drawn :=
    GameManager.generateRandomNumber (r_gameType room) (Server.o_random o) in
  1 <= drawn.1 <= GameManager.maxNumber (r_gameType room)
  ∧ Server.handleMessage socket roomCode o
      (Server.mkData "callNumber" (Some (r_hostId room)) playerName msg number
                     pattern ready settings) c w
    = (c, add_outbox
            (deliveries (numberCalled drawn.1 drawn.2 playerName (now w))
                        (openSockets w) None (r_players room)) w).
Proof.
  intros Hroom Hstarted Hr0 Hr1 drawn. split.
  - by apply generateRandomNumber_range.
  - unfold Server.handleMessage, RoomManager.getRoom. simpl.
    rewrite Hroom, Hstarted. rewrite bool_decide_eq_true_2 by done. simpl.
    rewrite server_broadcast_spec, Hroom. done.
Qed.

(** The theorem at the game in progress, for the draw one half. *)
Lemma callNumber_draws_in_range_witness :
  rooms Scenario.inProgress !! Scenario.code
  = Some (Scenario.theRoom Scenario.inProgress)
  ∧ 1 <= (GameManager.generateRandomNumber "75ball" (1 # 2)).1 <= 75.
Proof.
  assert (rooms Scenario.inProgress !! Scenario.code
          = Some (Scenario.theRoom Scenario.inProgress)) as Hroom
    by (vm_compute; reflexivity).
  split; [exact Hroom|].
  refine (proj1 (callNumber_draws_in_range
                   1%nat Scenario.code Scenario.oracle Server.newConn
                   Scenario.inProgress (Scenario.theRoom Scenario.inProgress)
                   None None None None None None Hroom _ _ _)).
  - vm_compute. reflexivity.
  - vm_compute. discriminate.
  - vm_compute. reflexivity.
Defined.

(** ** Room codes *)

Lemma list_pair_ind {A} (P : list A → Prop) :
  P [] → (∀ x, P [x]) → (∀ x y l, P l → P (x :: y :: l)) → ∀ l, P l.
Proof.
  intros Hnil Hone Hstep. fix IH 1.
  intros [|x [|y l]];
    [exact Hnil | exact (Hone x) | exact (Hstep x y l (IH l))].
Qed.

Lemma randomWord_in_words (r : Q) :
  (0 <= r)%Q → (r < 1)%Q → RoomManager.randomWord r ∈ RoomManager.words.
Proof.
  intros Hr0 Hr1. unfold RoomManager.randomWord.
  pose proof (randomBelow_range r (Z.of_nat (length RoomManager.words))
                Hr0 Hr1 ltac:(simpl; lia)) as [Hlo Hhi].
  destruct (Z.ltb_spec (GameManager.randomBelow r
                          (Z.of_nat (length RoomManager.words))) 0); [lia|].
  apply list_elem_of_In, nth_In. lia.
Qed.

Lemma makeCode_in_allCodes (r1 r2 : Q) :
  (0 <= r1)%Q → (r1 < 1)%Q → (0 <= r2)%Q → (r2 < 1)%Q →
  RoomManager.makeCode r1 r2 ∈ allCodes.
Proof.
  intros. unfold allCodes, RoomManager.makeCode.
  apply list_elem_of_bind. exists (RoomManager.randomWord r1).
  split; [|by apply randomWord_in_words].
  apply list_elem_of_bind. exists (RoomManager.randomWord r2).
  split; [|by apply randomWord_in_words].
  apply list_elem_of_singleton. done.
Qed.

(** A code that the loop returns is not in use. *)
Lemma pickCode_fresh (rs : list Q) (codes : gmap string string) (code : string) :
  RoomManager.pickCode rs codes = Some code → codes !! code = None.
Proof.
  induction rs as [| |r1 r2 rs IH] using list_pair_ind; simpl; [done..|].
  destruct (decide (is_Some (codes !! RoomManager.makeCode r1 r2))) as [|Hfree];
    [done|].
  intros [= <-]. by apply eq_None_not_Some.
Qed.

(** With every code in use the loop goes on, however many draws it is
    given. *)
Lemma pickCode_exhausted (rs : list Q) (codes : gmap string string) :
  Forall (fun r => 0 <= r ∧ r < 1)%Q rs →
  (∀ code, code ∈ allCodes → is_Some (codes !! code)) →
  RoomManager.pickCode rs codes = None.
Proof.
  intros Hrs Hfull.
  induction rs as [| |r1 r2 rs IH] using list_pair_ind; simpl; [done..|].
  apply Forall_cons in Hrs as [[??] Hrs]. apply Forall_cons in Hrs as [[??] Hrs].
  rewrite decide_True; [by apply IH|].
  by apply Hfull, makeCode_in_allCodes.
Qed.

Lemma fmap_Some_inv {A B} (f : A → B) (o : option A) (b : B) :
  f <$> o = Some b → ∃ a, o = Some a ∧ f a = b.
Proof. destruct o as [a|]; simpl; [|done]. intros [= <-]. eauto. Qed.

Lemma registryFull_check :
  (fun w => (size (rooms w),
             bool_decide (Forall (fun code => is_Some (roomCodes w !! code))
                                 allCodes))) <$> registryFull
  = Some (144%nat, true).
Proof. vm_compute. reflexivity. Qed.

(** The full registry is reached by creating rooms. *)
Lemma registryFull_exhausted :
  ∃ w, registryFull = Some w
       ∧ size (rooms w) = 144%nat
       ∧ ∀ code, code ∈ allCodes → is_Some (roomCodes w !! code).
Proof.
  destruct (fmap_Some_inv _ _ _ registryFull_check) as (w & Hw & [= Hsize Hall]).
  exists w. split; [done|]. split; [done|].
  apply Forall_forall. by apply bool_decide_eq_true_1 in Hall.
Qed.

(** C8, where the code departs from it. When every pair of words is the
    code of a live room, [generateRoomCode] does not come back: whatever
    draws it is given, and however many, the loop is still running when
    they are used up; nothing is reported, and [createRoom] hangs with
    it. *)
Theorem generateRoomCode_loops_when_exhausted
    (rs : list Q) (w : World) (roomId playerId : string)
    (data : RoomManager.CreateData) :
  Forall (fun r => 0 <= r ∧ r < 1)%Q rs →
  (∀ code, code ∈ allCodes → is_Some (roomCodes w !! code)) →
  RoomManager.generateRoomCode rs w = None
  ∧ RoomManager.createRoom roomId playerId rs data w = None.
Proof.
  intros Hrs Hfull.
  assert (RoomManager.generateRoomCode rs w = None) as Hloop.
  { unfold RoomManager.generateRoomCode. by rewrite pickCode_exhausted. }
  split; [done|]. unfold RoomManager.createRoom. by rewrite Hloop.
Qed.

(** The theorem at the full registry, for four draws. *)
Lemma generateRoomCode_loops_when_exhausted_witness :
  (∀ code, code ∈ allCodes → is_Some (roomCodes fullWorld !! code))
  ∧ RoomManager.generateRoomCode [1 # 2; 1 # 3; 0; 11 # 12]%Q fullWorld = None
  ∧ RoomManager.createRoom "uuid-room" "uuid-host"
      [1 # 2; 1 # 3; 0; 11 # 12]%Q
      (RoomManager.mkCreateData "Hana" "Friday" 4 "75ball" 100) fullWorld
    = None.
Proof.
  assert (∀ code, code ∈ allCodes → is_Some (roomCodes fullWorld !! code))
    as Hfull.
  { apply Forall_forall. apply (bool_decide_unpack _). vm_compute. exact I. }
  split; [exact Hfull|].
  apply generateRoomCode_loops_when_exhausted; [|exact Hfull].
  repeat constructor; vm_compute; discriminate.
Defined.

(** ** Leaving *)

(** C6 as stated fails. A, B and C joined in this order and B sent its
    join message a second time, which renews the joinedAt of B and keeps
    its place in the map. When the host A leaves, B becomes host, though
    C has the earlier joinedAt. *)
Lemma new_host_not_earliest_joinedAt :
  let g := GameManager.onlinePlayers (gameManager Scenario.hostLeft) in
  r_hostId <$> rooms Scenario.hostLeft !! Scenario.code = Some "B"%string
  ∧ js_keys <$> (r_players <$> rooms Scenario.hostLeft !! Scenario.code)
    = Some ["B"; "C"]%string
  ∧ GameManager.joinedAt <$> g !! "B"%string = Some 4
  ∧ GameManager.joinedAt <$> g !! "C"%string = Some 3.
Proof. vm_compute. done. Qed.

(** C6, amended. When the host leaves and other players remain, the
    first of them in the order of the players map becomes host: the room
    takes its id and name, it is flagged as host, it is a player of the
    room, a newHost message goes to every remaining player whose socket
    is open, and no timer is armed. When the host leaves and nobody
    remains, the host id stays that of the player who left, who is not
    in the room, nothing is sent, and the eviction check is armed for
    five minutes later. *)
Theorem host_leaves_first_remaining_becomes_host
    (roomCode : string) (w : World) (room : Room) :
  rooms w !! roomCode = Some room →
  let w' := RoomManager.removePlayerFromRoom roomCode (r_hostId room) w in
  ∃ room',
    rooms w' !! roomCode = Some room'
    ∧ match js_delete (r_hostId room) (r_players room) with
      | (k, p) :: rest =>
          r_hostId room' = p_id p
          ∧ r_hostName room' = p_name p
          ∧ r_players room' = (k, set_isHost true p) :: rest
          ∧ (∃ q, q ∈ js_values (r_players room')
                  ∧ p_id q = r_hostId room' ∧ p_isHost q = true)
          ∧ outbox w'
            = outbox w
              ++ deliveries (newHost (p_id p) (p_name p) (now w))
                            (openSockets w) None (r_players room')
          ∧ timers w' = timers w
      | [] =>
          r_hostId room' = r_hostId room
          ∧ r_players room' = []
          ∧ js_get (r_hostId room') (r_players room') = None
          ∧ outbox w' = outbox w
          ∧ timers w'
            = timers w ++ [(now w + RoomManager.evictionDelay, roomCode)]
      end.
Proof.
  intros Hroom w'. unfold w', RoomManager.removePlayerFromRoom.
  rewrite Hroom. simpl. rewrite bool_decide_eq_true_2 by done. simpl.
  destruct (js_delete (r_hostId room) (r_players room)) as [|[k p] rest] eqn:Hdel.
  - simpl. eexists. split; [apply lookup_insert_eq|]. simpl. done.
  - assert ((js_size ((k, p) :: rest) >? 0) = true) as ->.
    { unfold js_size. simpl length. apply Z.gtb_lt. lia. }
    simpl. rewrite manager_broadcast_spec. simpl. rewrite lookup_insert_eq.
    simpl.
    eexists. split; [apply lookup_insert_eq|]. simpl.
    repeat split; try done.
    exists (set_isHost true p). split; [|done].
    unfold js_values. simpl. apply list_elem_of_here.
Qed.

(** The theorem at the room of A, B and C, when A leaves. *)
Lemma host_leaves_first_remaining_becomes_host_witness :
  rooms Scenario.threeJoined !! Scenario.code
  = Some (Scenario.theRoom Scenario.threeJoined)
  ∧ ∃ room',
      rooms (RoomManager.removePlayerFromRoom Scenario.code "A"
               Scenario.threeJoined) !! Scenario.code = Some room'
      ∧ r_hostId room' = "B"%string.
Proof.
  assert (rooms Scenario.threeJoined !! Scenario.code
          = Some (Scenario.theRoom Scenario.threeJoined)) as Hroom
    by (vm_compute; reflexivity).
  split; [exact Hroom|].
  destruct (host_leaves_first_remaining_becomes_host
              Scenario.code Scenario.threeJoined
              (Scenario.theRoom Scenario.threeJoined) Hroom)
    as (room' & Hroom' & Hrest).
  exists room'. split; [exact Hroom'|].
  vm_compute in Hrest. destruct Hrest as (Hhost & _). exact Hhost.
Defined.

(** ** Eviction *)


Lemma evictionCheck_keeps roomCode w :
  roomIsEmpty roomCode w = false → RoomManager.evictionCheck roomCode w = w.
Proof.
  unfold roomIsEmpty, RoomManager.evictionCheck.
  destruct (rooms w !! roomCode); [|done]. by intros ->.
Qed.

Lemma evictionCheck_removes roomCode w :
  roomIsEmpty roomCode w = true →
  RoomManager.evictionCheck roomCode w
  = set_roomCodes (delete roomCode (roomCodes w))
                  (set_rooms (delete roomCode (rooms w)) w).
Proof.
  unfold roomIsEmpty, RoomManager.evictionCheck.
  destruct (rooms w !! roomCode); [|done]. by intros ->.
Qed.

Lemma evictionCheck_lookup (c c' : string) (w : World) :
  let gone := bool_decide (c = c') && roomIsEmpty c w in
  rooms (RoomManager.evictionCheck c' w) !! c
  = (if gone then None else rooms w !! c)
  ∧ roomCodes (RoomManager.evictionCheck c' w) !! c
    = (if gone then None else roomCodes w !! c)
  ∧ roomIsEmpty c (RoomManager.evictionCheck c' w)
    = negb (bool_decide (c = c')) && roomIsEmpty c w.
Proof.
  destruct (roomIsEmpty c' w) eqn:Hc'.
  - rewrite (evictionCheck_removes _ _ Hc'). unfold roomIsEmpty at 2. cbn.
    destruct (decide (c = c')) as [->|Hne].
    + rewrite bool_decide_eq_true_2, Hc', !lookup_delete_eq by done. done.
    + rewrite bool_decide_eq_false_2, !lookup_delete_ne by done. done.
  - rewrite (evictionCheck_keeps _ _ Hc').
    destruct (decide (c = c')) as [->|Hne].
    + rewrite bool_decide_eq_true_2, Hc' by done. done.
    + rewrite bool_decide_eq_false_2 by done. done.
Qed.

(** What a run of checks does to one code: the room goes, and its code
    with it, when a check is run for it and it is empty; otherwise both
    stay. *)
Lemma evictionChecks_lookup (c : string) (l : list (Z * string)) (w : World) :
  rooms (foldl (fun w' (tm : Z * string) =>
                  RoomManager.evictionCheck tm.2 w') w l) !! c
  = (if bool_decide (c ∈ l.*2) && roomIsEmpty c w then None else rooms w !! c)
  ∧ roomCodes (foldl (fun w' (tm : Z * string) =>
                        RoomManager.evictionCheck tm.2 w') w l) !! c
    = (if bool_decide (c ∈ l.*2) && roomIsEmpty c w then None
       else roomCodes w !! c).
Proof.
  revert w. induction l as [|[d c'] l IH]; intros w.
  - rewrite bool_decide_eq_false_2 by apply not_elem_of_nil. done.
  - rewrite fmap_cons. cbn [foldl snd].
    destruct (IH (RoomManager.evictionCheck c' w)) as [-> ->].
    destruct (evictionCheck_lookup c c' w) as (-> & -> & ->).
    destruct (decide (c = c')) as [->|Hne].
    + rewrite (bool_decide_eq_true_2 (c' ∈ c' :: l.*2))
        by apply list_elem_of_here.
      rewrite (bool_decide_eq_true_2 (c' = c')) by done.
      cbn. rewrite andb_false_r. by destruct (roomIsEmpty c' w).
    + rewrite (bool_decide_eq_false_2 (c = c')) by done. cbn.
      rewrite (bool_decide_ext (c ∈ c' :: l.*2) (c ∈ l.*2)); [done|].
      rewrite elem_of_cons. split; [by intros [?|?] | auto].
Qed.


(** The rooms and codes after the clock has moved to [t]. *)
Lemma advance_lookup (c : string) (t : Z) (w : World) :
  let gone := checkDue c t w && roomIsEmpty c w in
  rooms (advance t w) !! c = (if gone then None else rooms w !! c)
  ∧ roomCodes (advance t w) !! c = (if gone then None else roomCodes w !! c).
Proof.
  apply (evictionChecks_lookup c
           (filter (fun tm : Z * string => tm.1 <= t) (timers w))
           (set_now (Z.max (now w) t)
              (set_timers
                 (filter (fun tm : Z * string => ¬ tm.1 <= t) (timers w))
                 w))).
Qed.



(** Two checks are pending for a room that holds a player again; both
    run, and the room stays. *)
Lemma overlapping_checks_keep_the_room :
  timers Scenario.rejoined = [(300002, Scenario.code); (300020, Scenario.code)]
  ∧ timers (advance 400000 Scenario.rejoined) = []
  ∧ js_keys <$> (r_players
                   <$> rooms (advance 400000 Scenario.rejoined) !! Scenario.code)
    = Some ["C"%string].
Proof. vm_compute. done. Qed.




(** * Further properties of the code *)

(** ** Prizes and labels *)

Lemma round_nonneg (n : Z) : 0 <= n → Double.round n = Double.roundNat n.
Proof.
  intros Hn. unfold Double.round. rewrite Z.abs_eq by done.
  destruct (Z.eq_dec n 0) as [->|Hne]; [done|].
  rewrite Z.sgn_pos by lia. apply Z.mul_1_l.
Qed.

(** A natural number below [2^53] is a double. *)
Lemma round_exact (n : Z) : 0 <= n < 2 ^ 53 → Double.round n = n.
Proof.
  intros [Hn0 Hn]. rewrite round_nonneg by done.
  unfold Double.roundNat, Double.precision.
  destruct (Z.leb_spec (Z.log2 n + 1 - 53) 0) as [|Hs]; [done|].
  exfalso. destruct (Z.le_gt_cases n 0) as [Hle|Hpos].
  - rewrite Z.log2_nonpos in Hs by done. lia.
  - pose proof (proj1 (Z.log2_lt_pow2 n 53 Hpos) Hn). lia.
Qed.

(** A larger number is rounded to a multiple of the unit [2^s] of its
    binade, not below its quotient by the unit and at most half a unit
    above the number. *)
Lemma round_near (n : Z) :
  2 ^ 53 <= n →
  ∃ s q, 0 < s ∧ s = Z.log2 n - 52
         ∧ Double.round n = q * 2 ^ s
         ∧ n / 2 ^ s <= q
         ∧ 2 * (q * 2 ^ s) <= 2 * n + 2 ^ s
         ∧ 2 ^ s * 2 ^ 52 <= n.
Proof.
  intros Hn. assert (0 < n) as Hpos by lia.
  assert (53 <= Z.log2 n) as H53 by (by apply (Z.log2_le_pow2 n 53 Hpos)).
  exists (Z.log2 n - 52),
    (if (2 ^ (Z.log2 n - 52 - 1) <? n mod 2 ^ (Z.log2 n - 52))
        || ((n mod 2 ^ (Z.log2 n - 52) =? 2 ^ (Z.log2 n - 52 - 1))
            && Z.odd (n / 2 ^ (Z.log2 n - 52)))
     then n / 2 ^ (Z.log2 n - 52) + 1 else n / 2 ^ (Z.log2 n - 52)).
  set (s := Z.log2 n - 52). assert (0 < s) as Hs by lia.
  assert (0 < 2 ^ s) as HT by (apply Z.pow_pos_nonneg; lia).
  assert (2 ^ s = 2 * 2 ^ (s - 1)) as Hhalf.
  { rewrite <- Z.pow_succ_r by lia. f_equal. lia. }
  pose proof (Z.div_mod n (2 ^ s) ltac:(lia)) as Hdm.
  pose proof (Z.mod_pos_bound n (2 ^ s) HT) as Hr.
  split; [done|]. split; [done|]. split.
  { rewrite round_nonneg by lia. unfold Double.roundNat, Double.precision.
    replace (Z.log2 n + 1 - 53) with s by lia.
    destruct (Z.leb_spec s 0); [lia|].
    rewrite !Z.shiftl_mul_pow2, Z.shiftr_div_pow2 by lia.
    rewrite Z.mul_1_l.
    replace (n - n / 2 ^ s * 2 ^ s) with (n mod 2 ^ s) by lia.
    done. }
  set (q := n / 2 ^ s) in *. set (r := n mod 2 ^ s) in *.
  set (h := 2 ^ (s - 1)) in *.
  split; [by destruct (_ || _); lia|]. split.
  - destruct (Z.ltb_spec h r); cbn [orb].
    + nia.
    + destruct (Z.eqb_spec r h); cbn [andb]; [destruct (Z.odd q)|]; nia.
  - rewrite <- Z.pow_add_r by lia. replace (s + 52) with (Z.log2 n) by lia.
    by apply Z.log2_spec.
Qed.

(** Beyond the bound of the theorem below the two roundings of the code
    show: at a pot of [2^53 - 1], and already at [2^51 + 3], the prize
    of the code is one more than four fifths of the pot rounded down. *)
Lemma calculatePrize_large_pot :
  Double.calculatePrize 9007199254740991 1 = 7205759403792793
  ∧ GameManager.calculatePrize 9007199254740991 1 = 7205759403792792
  ∧ Double.calculatePrize (2 ^ 51 + 3) 1
    = GameManager.calculatePrize (2 ^ 51 + 3) 1 + 1.
Proof. vm_compute. done. Qed.

(** X1. For a stake and a player count that are not negative and a pot
    of at most [10^15], the prize that the code computes in double
    precision is four fifths of the pot rounded down, the value of
    [GameManager.calculatePrize]: it is not negative, and five times the
    prize is at most four times the pot and misses it by less than five;
    so the prize never exceeds the pot. *)
Theorem calculatePrize_four_fifths (stake playerCount : Z) :
  0 <= stake → 0 <= playerCount → stake * playerCount <= 10 ^ 15 →
  let prize := Double.calculatePrize stake playerCount in
  prize = GameManager.calculatePrize stake playerCount
  ∧ 0 <= prize <= stake * playerCount
  ∧ 5 * prize <= 4 * (stake * playerCount) < 5 * prize + 5.
Proof.
  intros Hs Hp Hbound prize.
  assert (0 <= stake * playerCount) as Hpot by lia.
  set (pot := stake * playerCount) in *.
  change (10 ^ 15) with 1000000000000000 in Hbound.
  assert (GameManager.calculatePrize stake playerCount = 4 * pot / 5)
    as Hmodel.
  { unfold GameManager.calculatePrize, Qfloor. simpl. fold pot.
    change (Z.pos (1 * 10)) with (5 * 2).
    replace (pot * 8) with (4 * pot * 2) by lia.
    by rewrite Z.div_mul_cancel_r. }
  assert (prize = 4 * pot / 5) as Hprize.
  { unfold prize, Double.calculatePrize. fold pot.
    rewrite (round_exact pot)
      by (change (2 ^ 53) with 9007199254740992; lia).
    rewrite Z.shiftr_div_pow2 by lia.
    pose proof (Z.div_mod (4 * pot) 5 ltac:(lia)) as Hdm.
    pose proof (Z.mod_pos_bound (4 * pot) 5 ltac:(lia)) as Hr.
    set (K := 4 * pot / 5) in *.
    symmetry. apply Z.div_unique_pos with
      (r := Double.round (pot * Double.fourFifths) - K * 2 ^ 52); [|lia].
    unfold Double.fourFifths.
    destruct (Z.lt_ge_cases (pot * 3602879701896397) (2 ^ 53))
      as [Hsmall|Hbig].
    - rewrite round_exact by lia. change (2 ^ 52) with 4503599627370496.
      lia.
    - destruct (round_near _ Hbig)
        as (s & q & Hs0 & Hs1 & -> & Hq & Hup & Hlow).
      assert (s <= 50) as Hs50.
      { assert (Z.log2 (pot * 3602879701896397) < 103); [|lia].
        apply Z.log2_lt_pow2; [lia|].
        change (2 ^ 103) with (1125899906842624 * 9007199254740992). nia. }
      assert (2 ^ 52 = 2 ^ (52 - s) * 2 ^ s) as Hsplit.
      { rewrite <- Z.pow_add_r by lia. f_equal. lia. }
      assert (0 < 2 ^ s) as HT by (apply Z.pow_pos_nonneg; lia).
      assert (0 < 2 ^ (52 - s)) as HU by (apply Z.pow_pos_nonneg; lia).
      assert (K * 2 ^ (52 - s) <= q) as Hlower.
      { etrans; [|exact Hq]. apply Z.div_le_lower_bound; [done|].
        rewrite Z.mul_comm, <- Z.mul_assoc, <- Hsplit.
        change (2 ^ 52) with 4503599627370496. lia. }
      split.
      + rewrite Hsplit, Z.mul_assoc. nia.
      + assert (2 * (q * 2 ^ s) < 2 * ((K + 1) * 2 ^ 52)); [|lia].
        change (2 ^ 52) with 4503599627370496 in *. lia. }
  split; [congruence|]. rewrite Hprize.
  pose proof (Z.div_mod (4 * pot) 5 ltac:(lia)).
  pose proof (Z.mod_pos_bound (4 * pot) 5 ltac:(lia)).
  lia.
Qed.

(** The theorem at stake 100 and four players. *)
Lemma calculatePrize_four_fifths_witness :
  Double.calculatePrize 100 4 = GameManager.calculatePrize 100 4
  ∧ 0 <= Double.calculatePrize 100 4 <= 100 * 4
  ∧ 5 * Double.calculatePrize 100 4 <= 4 * (100 * 4)
    < 5 * Double.calculatePrize 100 4 + 5.
Proof. apply (calculatePrize_four_fifths 100 4); vm_compute; discriminate. Defined.

(** X2. For a draw of [Math.random()], the label of a number called in
    the 75-ball or the pattern variant is a letter of BINGO, a dash and
    the number: the letter is the one of the fifteen numbers the number
    lies in, so the clamp to the last letter never applies and no label
    reads undefined. In the other variants the label is the number. *)
Theorem generateRandomNumber_label (gameType : string) (r : Q) :
  unitDraw r →
  let drawn := GameManager.generateRandomNumber gameType r in
  if decide (gameType = "75ball"%string ∨ gameType = "pattern"%string) then
    ∃ (i : nat) (letter : string),
      GameManager.letters !! i = Some letter
      ∧ 15 * Z.of_nat i < drawn.1 <= 15 * Z.of_nat i + 15
      ∧ drawn.2 = (letter +:+ "-" +:+ pretty drawn.1)%string
  else drawn.2 = pretty drawn.1.
Proof.
  intros [Hr0 Hr1] drawn.
  pose proof (generateRandomNumber_range gameType r Hr0 Hr1) as Hrange.
  fold drawn in Hrange.
  destruct (decide (gameType = "75ball"%string ∨ gameType = "pattern"%string))
    as [Hbingo|Hother].
  - assert (GameManager.maxNumber gameType = 75) as Hmax
      by (destruct Hbingo as [-> | ->]; reflexivity).
    rewrite Hmax in Hrange.
    set (column := (drawn.1 - 1) / 15).
    assert (0 <= column <= 4) as Hcolumn.
    { unfold column. split; [apply Z.div_pos; lia|].
      apply Z.lt_succ_r, Z.div_lt_upper_bound; lia. }
    assert (15 * column < drawn.1 <= 15 * column + 15) as Hin.
    { unfold column.
      pose proof (Z.div_mod (drawn.1 - 1) 15 ltac:(lia)).
      pose proof (Z.mod_pos_bound (drawn.1 - 1) 15 ltac:(lia)). lia. }
    assert (drawn.2
            = (GameManager.letterAt (Z.min column 4) +:+ "-"
               +:+ pretty drawn.1)%string) as ->.
    { unfold drawn, GameManager.generateRandomNumber. simpl.
      rewrite decide_True by done. done. }
    rewrite Z.min_l by lia. unfold GameManager.letterAt.
    destruct (Z.ltb_spec column 0); [lia|].
    exists (Z.to_nat column).
    destruct (GameManager.letters !! Z.to_nat column) as [letter|] eqn:Hletter.
    + exists letter. split; [done|]. rewrite Z2Nat.id by lia.
      split; [done|]. by rewrite (nth_lookup_Some _ _ _ _ Hletter).
    + apply lookup_ge_None in Hletter. simpl in Hletter. lia.
  - unfold drawn, GameManager.generateRandomNumber. simpl.
    by rewrite decide_False.
Qed.

(** The theorem at the draw one half of a 75-ball game: N-38. *)
Lemma generateRandomNumber_label_witness :
  ∃ (i : nat) (letter : string),
    GameManager.letters !! i = Some letter
    ∧ 15 * Z.of_nat i < 38 <= 15 * Z.of_nat i + 15
    ∧ (GameManager.generateRandomNumber "75ball" (1 # 2)).2
      = (letter +:+ "-" +:+ pretty 38)%string.
Proof.
  apply (generateRandomNumber_label "75ball" (1 # 2)).
  split; vm_compute; [discriminate | reflexivity].
Defined.

(** ** Boards *)

Lemma setAdd_spec (n : Z) (numbers : list Z) :
  NoDup numbers →
  NoDup (Boards.setAdd n numbers)
  ∧ (∀ x, x ∈ Boards.setAdd n numbers ↔ x = n ∨ x ∈ numbers)
  ∧ (length (Boards.setAdd n numbers) <= S (length numbers))%nat.
Proof.
  intros Hnd. unfold Boards.setAdd. destruct (decide (n ∈ numbers)) as [Hin|Hin].
  - split; [done|]. split; [|lia]. intros x. split; [auto|].
    by intros [->|?].
  - split; [|split].
    + apply NoDup_app. split; [done|]. split; [|apply NoDup_singleton].
      intros x Hx ->%list_elem_of_singleton. done.
    + intros x. rewrite elem_of_app, list_elem_of_singleton. tauto.
    + rewrite length_app. simpl. lia.
Qed.

Lemma randomInRange_bounds (r : Q) (min max : Z) :
  unitDraw r → min <= max → min <= Boards.randomInRange r min max <= max.
Proof.
  intros [Hr0 Hr1] Hle. unfold Boards.randomInRange.
  pose proof (randomBelow_range r (max - min + 1) Hr0 Hr1 ltac:(lia)). lia.
Qed.

(** What the filling loop returns when it returns. *)
Lemma fill_spec (count min max : Z) (rs : list Q) :
  min <= max →
  ∀ numbers ns rs',
    Forall unitDraw rs →
    NoDup numbers →
    Forall (fun n => min <= n <= max) numbers →
    Z.of_nat (length numbers) <= count →
    Boards.fill count min max numbers rs = Some (ns, rs') →
    NoDup ns
    ∧ Forall (fun n => min <= n <= max) ns
    ∧ Z.of_nat (length ns) = count
    ∧ rs' `suffix_of` rs
    ∧ Forall unitDraw rs'.
Proof.
  intros Hle. induction rs as [|r rs IH]; intros numbers ns rs' Hrs Hnd Hin Hlen;
    simpl; destruct (Z.ltb_spec (Z.of_nat (length numbers)) count) as [Hlt|Hge];
    try done.
  - intros [= <- <-]. repeat split; try done. lia.
  - intros Hfill. apply Forall_cons in Hrs as [Hr Hrs].
    destruct (setAdd_spec (Boards.randomInRange r min max) numbers Hnd)
      as (Hnd' & Hmem & Hlen').
    assert (Forall (fun n => min <= n <= max)
                   (Boards.setAdd (Boards.randomInRange r min max) numbers))
      as Hin'.
    { apply Forall_forall. intros x [->|Hx]%Hmem.
      - by apply randomInRange_bounds.
      - by eapply Forall_forall in Hin. }
    destruct (IH _ _ _ Hrs Hnd' Hin' ltac:(lia) Hfill)
      as (? & ? & ? & Hsuf & ?).
    repeat split; try done. by apply suffix_cons_r.
  - intros [= <- <-]. repeat split; try done; lia.
Qed.

Lemma StronglySorted_le_lt (l : list Z) :
  StronglySorted Z.le l → NoDup l → StronglySorted Z.lt l.
Proof.
  induction 1 as [|x l Hl IH Hx]; [constructor|].
  intros [Hnotin Hnd]%NoDup_cons. constructor; [by apply IH|].
  apply Forall_forall. intros y Hy.
  assert (x <= y) by by eapply Forall_forall in Hx.
  assert (x ≠ y) by (intros ->; done). lia.
Qed.

Lemma sortAscending_spec (l : list Z) :
  NoDup l →
  StronglySorted Z.lt (Boards.sortAscending l) ∧ Boards.sortAscending l ≡ₚ l.
Proof.
  intros Hnd. unfold Boards.sortAscending.
  pose proof (merge_sort_Permutation Z.le l) as Hperm.
  split; [|done]. apply StronglySorted_le_lt.
  - apply StronglySorted_merge_sort; apply _.
  - by rewrite Hperm.
Qed.

Lemma sorted_column (count : nat) (min max : Z) (numbers : list Z) :
  NoDup numbers →
  Forall (fun n => min <= n <= max) numbers →
  length numbers = count →
  columnOk count (min, max) (Boards.sortAscending numbers).
Proof.
  intros Hnd Hin Hlen. destruct (sortAscending_spec numbers Hnd) as [Hs Hp].
  split; [by rewrite Hp|]. split; [done|]. by rewrite Hp.
Qed.

Lemma fill75_spec (columns : list (Z * Z)) :
  Forall (fun c : Z * Z => c.1 <= c.2) columns →
  ∀ board rs board' rs',
    Forall unitDraw rs →
    Boards.fill75 columns board rs = Some (board', rs') →
    ∃ chunks,
      board' = board ++ concat chunks
      ∧ Forall2 (columnOk 5) columns chunks
      ∧ rs' `suffix_of` rs ∧ Forall unitDraw rs'.
Proof.
  induction columns as [|[min max] columns IH]; intros Hcols board rs board' rs' Hrs;
    simpl.
  - intros [= <- <-]. exists []. simpl. rewrite app_nil_r. by repeat split.
  - apply Forall_cons in Hcols as [Hle Hcols]. simpl in Hle.
    destruct (Boards.fill 5 min max [] rs) as [[numbers rs1]|] eqn:Hfill;
      [|done].
    destruct (fill_spec 5 min max rs Hle [] numbers rs1 Hrs) as
      (Hnd & Hin & Hlen & Hsuf & Hrs1); [constructor | done | simpl; lia | done |].
    intros (chunks & -> & Hchunks & Hsuf' & Hrs')%(IH Hcols _ _ _ _ Hrs1).
    exists (Boards.sortAscending numbers :: chunks). simpl.
    rewrite <- app_assoc. split; [done|]. split; [|split; [|done]].
    + constructor; [|done]. apply sorted_column; [done..|lia].
    + by etrans.
Qed.

Lemma fill90_spec (columns : list (Z * Z)) :
  Forall (fun c : Z * Z => c.1 <= c.2) columns →
  ∀ board rs board' rs',
    Forall unitDraw rs →
    Boards.fill90 columns board rs = Some (board', rs') →
    ∃ chunks,
      board' = board ++ concat chunks
      ∧ Forall2 column90Ok columns chunks
      ∧ rs' `suffix_of` rs ∧ Forall unitDraw rs'.
Proof.
  induction columns as [|[min max] columns IH]; intros Hcols board rs board' rs' Hrs;
    simpl.
  - intros [= <- <-]. exists []. simpl. rewrite app_nil_r. by repeat split.
  - apply Forall_cons in Hcols as [Hle Hcols]. simpl in Hle.
    destruct rs as [|r rs1]; [done|].
    apply Forall_cons in Hrs as [[Hr0 Hr1] Hrs].
    pose proof (randomBelow_range r 3 Hr0 Hr1 ltac:(lia)) as Hcount.
    destruct (Boards.fill (GameManager.randomBelow r 3 + 1) min max [] rs1)
      as [[numbers rs2]|] eqn:Hfill; [|done].
    destruct (fill_spec (GameManager.randomBelow r 3 + 1) min max rs1 Hle
                        [] numbers rs2 Hrs) as
      (Hnd & Hin & Hlen & Hsuf & Hrs2); [constructor | done | simpl; lia | done |].
    intros (chunks & -> & Hchunks & Hsuf' & Hrs')%(IH Hcols _ _ _ _ Hrs2).
    exists (numbers :: chunks). simpl.
    rewrite <- app_assoc. split; [done|]. split; [|split; [|done]].
    + constructor; [|done]. split; [lia|]. done.
    + etrans; [done|]. by apply suffix_cons_r.
Qed.

Lemma Forall2_concat_length {A B} (P : A → list B → Prop) (n m : nat)
    (xs : list A) (chunks : list (list B)) :
  (∀ x chunk, P x chunk → n <= length chunk <= m)%nat →
  Forall2 P xs chunks →
  (n * length xs <= length (concat chunks) <= m * length xs)%nat.
Proof.
  intros HP. induction 1 as [|x chunk xs chunks Hx _ IH]; simpl; [lia|].
  rewrite length_app. specialize (HP _ _ Hx). lia.
Qed.

(** X3. A board that [generateBoard] returns for the 75-ball variant, for
    the pattern variant or for a game type it does not know is made of
    five columns of five numbers, 25 in all: the numbers of column i lie
    between 15 i + 1 and 15 i + 15, ascending and without repeats. The
    draws not used are the end of the draws given. *)
Theorem generateBoard_75_columns
    (gameType : string) (rs rs' : list Q) (board : list Z) :
  gameType ≠ "90ball"%string → gameType ≠ "30ball"%string →
  Forall unitDraw rs →
  Boards.generateBoard gameType rs = Some (board, rs') →
  (∃ chunks,
     board = concat chunks ∧ Forall2 (columnOk 5) Boards.columns75 chunks)
  ∧ length board = 25%nat
  ∧ rs' `suffix_of` rs.
Proof.
  intros H90 H30 Hrs Hboard.
  assert (Boards.fill75 Boards.columns75 [] rs = Some (board, rs')) as Hfill.
  { revert Hboard. unfold Boards.generateBoard, Boards.generatePatternBoard.
    by repeat case_decide. }
  apply fill75_spec in Hfill as (chunks & -> & Hchunks & Hsuf & _);
    [|repeat constructor; simpl; lia | done].
  simpl. split; [eauto|]. split; [|done].
  pose proof (Forall2_concat_length (columnOk 5) 5 5 _ _
                ltac:(intros ?? (-> & _); lia) Hchunks) as Hlen.
  simpl in Hlen. lia.
Qed.

(** X4. A board that [generate90BallBoard] returns is made of nine
    columns, the column i of one to three different numbers between
    10 i + 1 and 10 i + 10, in the order drawn: 9 to 27 numbers. *)
Theorem generateBoard_90_columns (rs rs' : list Q) (board : list Z) :
  Forall unitDraw rs →
  Boards.generateBoard "90ball" rs = Some (board, rs') →
  (∃ chunks,
     board = concat chunks ∧ Forall2 column90Ok Boards.columns90 chunks)
  ∧ (9 <= length board <= 27)%nat
  ∧ NoDup board
  ∧ rs' `suffix_of` rs.
Proof.
  intros Hrs Hboard.
  change (Boards.fill90 Boards.columns90 [] rs = Some (board, rs')) in Hboard.
  apply fill90_spec in Hboard as (chunks & -> & Hchunks & Hsuf & _);
    [|repeat constructor; simpl; lia | done].
  simpl. split; [eauto|].
  pose proof (Forall2_concat_length column90Ok 1 3 _ _
                ltac:(intros ?? (? & _); lia) Hchunks) as Hlen.
  simpl in Hlen. split; [lia|]. split; [|done].
  (* the columns have no number in common: their ranges are apart *)
  assert (∀ (columns : list (Z * Z)) chunks (lo : Z),
            Forall2 column90Ok columns chunks →
            StronglySorted (fun a b : Z * Z => a.2 < b.1) columns →
            Forall (fun c : Z * Z => lo < c.1) columns →
            NoDup (concat chunks) ∧ Forall (fun n => lo < n) (concat chunks))
    as Hdisjoint.
  { clear. intros columns chunks lo Hall. revert lo.
    induction Hall as [|[min max] chunk columns chunks (Hlen & Hnd & Hin) _ IH];
      intros lo Hsorted Hlo; simpl; [by split; constructor|].
    apply StronglySorted_inv in Hsorted as [Hsorted Hmax].
    apply Forall_cons in Hlo as [Hmin Hlo]. simpl in *.
    destruct (IH max Hsorted) as [Hnd' Hgt].
    { eapply Forall_impl; [exact Hmax|]. simpl. intros. lia. }
    split.
    - apply NoDup_app. split; [done|]. split; [|done].
      intros x Hx Hx'. eapply Forall_forall in Hin; [|exact Hx].
      eapply Forall_forall in Hgt; [|exact Hx']. simpl in *. lia.
    - apply Forall_app. split.
      + eapply Forall_impl; [exact Hin|]. simpl. intros. lia.
      + eapply Forall_impl; [exact Hgt|]. simpl. intros ? ?.
        assert (min <= max); [|lia].
        destruct chunk as [|n chunk']; [simpl in Hlen; lia|].
        apply Forall_cons in Hin as [? _]. simpl in *. lia. }
  by destruct (Hdisjoint _ _ 0 Hchunks ltac:(repeat constructor; simpl; lia)
                 ltac:(repeat constructor; simpl; lia)).
Qed.

Lemma unitDraws_check (rs : list Q) :
  forallb unitDrawb rs = true → Forall unitDraw rs.
Proof.
  induction rs as [|r rs IH]; simpl; [constructor|].
  intros [Hr Hrs]%andb_true_iff. constructor; [|by apply IH].
  unfold unitDrawb in Hr. apply andb_true_iff in Hr as [H0 H1].
  split; [by apply Qle_bool_iff|].
  apply Qnot_le_lt. intros Hle%Qle_bool_iff. by rewrite Hle in H1.
Qed.

(** The theorem at the sample draws of a 75-ball board. *)
Lemma generateBoard_75_columns_witness :
  Boards.generateBoard "75ball" draws75
  = Some ([1; 2; 3; 4; 5; 16; 17; 18; 19; 20; 31; 32; 33; 34; 35;
           46; 47; 48; 49; 50; 61; 62; 63; 64; 65], [])
  ∧ ∃ chunks,
      [1; 2; 3; 4; 5; 16; 17; 18; 19; 20; 31; 32; 33; 34; 35;
       46; 47; 48; 49; 50; 61; 62; 63; 64; 65] = concat chunks
      ∧ Forall2 (columnOk 5) Boards.columns75 chunks.
Proof.
  assert (Boards.generateBoard "75ball" draws75
          = Some ([1; 2; 3; 4; 5; 16; 17; 18; 19; 20; 31; 32; 33; 34; 35;
                   46; 47; 48; 49; 50; 61; 62; 63; 64; 65], [])) as Hboard
    by (vm_compute; reflexivity).
  split; [exact Hboard|].
  refine (proj1 (generateBoard_75_columns "75ball" draws75 [] _ _ _ _ Hboard));
    [discriminate | discriminate |].
  apply unitDraws_check. vm_compute. reflexivity.
Defined.

(** The theorem at the sample draws of a 90-ball board. *)
Lemma generateBoard_90_columns_witness :
  Boards.generateBoard "90ball" draws90
  = Some ([6; 1; 16; 11; 26; 21; 36; 31; 46; 41; 56; 51; 66; 61; 76; 71;
           86; 81], [])
  ∧ NoDup [6; 1; 16; 11; 26; 21; 36; 31; 46; 41; 56; 51; 66; 61; 76; 71;
           86; 81].
Proof.
  assert (Boards.generateBoard "90ball" draws90
          = Some ([6; 1; 16; 11; 26; 21; 36; 31; 46; 41; 56; 51; 66; 61; 76;
                   71; 86; 81], [])) as Hboard
    by (vm_compute; reflexivity).
  split; [exact Hboard|].
  refine (proj1 (proj2 (proj2
            (generateBoard_90_columns draws90 [] _ _ Hboard)))).
  apply unitDraws_check. vm_compute. reflexivity.
Defined.

(** X5. A board that [generate30BallBoard] returns has nine numbers
    between 1 and 30, ascending and without repeats. *)
Theorem generateBoard_30_sorted (rs rs' : list Q) (board : list Z) :
  Forall unitDraw rs →
  Boards.generateBoard "30ball" rs = Some (board, rs') →
  columnOk 9 (1, 30) board ∧ rs' `suffix_of` rs.
Proof.
  intros Hrs Hboard.
  change (Boards.generate30BallBoard rs = Some (board, rs')) in Hboard.
  unfold Boards.generate30BallBoard in Hboard.
  destruct (Boards.fill 9 1 30 [] rs) as [[numbers rs1]|] eqn:Hfill; [|done].
  injection Hboard as <- <-.
  destruct (fill_spec 9 1 30 rs ltac:(lia) [] numbers rs1 Hrs)
    as (Hnd & Hin & Hlen & Hsuf & _); [constructor | done | simpl; lia | done |].
  split; [|done]. apply sorted_column; [done..|lia].
Qed.

(** The theorem at the sample draws of a 30-ball board. *)
Lemma generateBoard_30_sorted_witness :
  Boards.generateBoard "30ball" draws30
  = Some ([1; 4; 7; 8; 10; 13; 16; 19; 30], [])
  ∧ columnOk 9 (1, 30) [1; 4; 7; 8; 10; 13; 16; 19; 30].
Proof.
  assert (Boards.generateBoard "30ball" draws30
          = Some ([1; 4; 7; 8; 10; 13; 16; 19; 30], [])) as Hboard
    by (vm_compute; reflexivity).
  split; [exact Hboard|].
  refine (proj1 (generateBoard_30_sorted draws30 [] _ _ Hboard)).
  apply unitDraws_check. vm_compute. reflexivity.
Defined.

(** ** Players of a room *)

Section JsMapMore.
Context {V : Type}.
Implicit Types (m : list (string * V)) (k : string) (v : V).

Lemma js_set_elem k v m k' v' :
  (k', v') ∈ js_set k v m → (k' = k ∧ v' = v) ∨ (k', v') ∈ m.
Proof.
  induction m as [|[k0 v0] m IH]; simpl.
  - intros [=]%list_elem_of_singleton. auto.
  - destruct (decide (k0 = k)) as [->|Hne].
    + intros [[=]|?]%elem_of_cons; [auto|]. right. by apply elem_of_cons; right.
    + intros [[=]|Hin]%elem_of_cons.
      * right. subst. apply list_elem_of_here.
      * destruct (IH Hin); [auto|]. right. by apply elem_of_cons; right.
Qed.

Lemma js_keys_set k v m :
  js_keys (js_set k v m)
  = if decide (k ∈ js_keys m) then js_keys m else js_keys m ++ [k].
Proof.
  unfold js_keys. induction m as [|[k0 v0] m IH].
  - destruct (decide (k ∈ (@nil (string * V)).*1)) as [Hin|_]; [|done].
    by apply not_elem_of_nil in Hin.
  - cbn [js_set]. rewrite fmap_cons. cbn [fst].
    destruct (decide (k0 = k)) as [->|Hne].
    + rewrite fmap_cons. cbn [fst].
      by rewrite decide_True by apply list_elem_of_here.
    + rewrite fmap_cons, IH. cbn [fst].
      destruct (decide (k ∈ m.*1)) as [Hin|Hin].
      * by rewrite decide_True by (by apply elem_of_cons; right).
      * rewrite decide_False; [done|].
        intros [?|?]%elem_of_cons; [congruence|done].
Qed.

Lemma js_delete_elem k m k' v' :
  (k', v') ∈ js_delete k m ↔ (k', v') ∈ m ∧ k' ≠ k.
Proof.
  induction m as [|[k0 v0] m IH]; simpl.
  - split; [by intros ?%not_elem_of_nil | by intros [?%not_elem_of_nil _]].
  - destruct (decide (k0 = k)) as [->|Hne].
    + rewrite IH, elem_of_cons. split; [intros [??]; auto|].
      intros [[[=]|?] ?]; [congruence|done].
    + rewrite !elem_of_cons, IH. split.
      * intros [[=]|[??]]; subst; auto.
      * intros [[?|?] ?]; auto.
Qed.

Lemma js_keys_delete k m :
  js_keys (js_delete k m) = filter (fun k' => k' ≠ k) (js_keys m).
Proof.
  unfold js_keys. induction m as [|[k0 v0] m IH]; [done|].
  cbn [js_delete]. rewrite fmap_cons, filter_cons. cbn [fst].
  destruct (decide (k0 = k)) as [->|Hne].
  - by rewrite decide_False by (intros ?; done).
  - by rewrite decide_True, fmap_cons, IH by done.
Qed.

Lemma js_delete_absent k m : k ∉ js_keys m → js_delete k m = m.
Proof.
  unfold js_keys. induction m as [|[k0 v0] m IH]; simpl; [done|].
  intros [Hne Hnotin]%not_elem_of_cons.
  rewrite decide_False by done. by rewrite IH.
Qed.

Lemma js_delete_set_absent k v m :
  k ∉ js_keys m → js_delete k (js_set k v m) = m.
Proof.
  unfold js_keys. induction m as [|[k0 v0] m IH]; simpl.
  - intros _. by rewrite decide_True.
  - intros [Hne Hnotin]%not_elem_of_cons.
    rewrite decide_False by done. simpl. rewrite decide_False by done.
    by rewrite IH.
Qed.

Lemma js_keys_elem k m : k ∈ js_keys m ↔ ∃ v, (k, v) ∈ m.
Proof.
  unfold js_keys. rewrite list_elem_of_fmap. split.
  - intros ([k' v] & -> & ?). eauto.
  - intros (v & ?). by exists (k, v).
Qed.
End JsMapMore.

(** Show the keys of a map as [js_keys] again after a reduction. *)
Ltac fold_keys :=
  repeat match goal with
         | |- context [fst <$> ?m] => change (fst <$> m) with (js_keys m)
         | H : context [fst <$> ?m] |- _ =>
             change (fst <$> m) with (js_keys m) in H
         end.

Lemma sameIdentity_refl room : sameIdentity room room.
Proof. by repeat split. Qed.

Lemma sameIdentity_trans r1 r2 r3 :
  sameIdentity r1 r2 → sameIdentity r2 r3 → sameIdentity r1 r3.
Proof.
  intros (?&?&?&?&?&?&?) (?&?&?&?&?&?&?). repeat split; congruence.
Qed.

Lemma roomsEvolve_same w w' : rooms w' = rooms w → roomsEvolve w w'.
Proof.
  intros Heq c. rewrite Heq. destruct (rooms w !! c) as [room|]; [|done].
  exists room. split; [done|]. split; [apply sameIdentity_refl | done].
Qed.

Lemma roomsEvolve_trans w1 w2 w3 :
  roomsEvolve w1 w2 → roomsEvolve w2 w3 → roomsEvolve w1 w3.
Proof.
  intros H12 H23 c. specialize (H12 c). specialize (H23 c).
  destruct (rooms w1 !! c) as [room|].
  - destruct H12 as (room2 & Hr2 & Hid & Hok). rewrite Hr2 in H23.
    destruct H23 as (room3 & Hr3 & Hid' & Hok').
    exists room3. split; [done|]. split; [by eapply sameIdentity_trans | auto].
  - by rewrite H12 in H23.
Qed.

Lemma roomsEvolve_insert w w' c room room' :
  rooms w !! c = Some room →
  rooms w' = <[c := room']> (rooms w) →
  sameIdentity room room' →
  (playersOk room → playersOk room') →
  roomsEvolve w w'.
Proof.
  intros Hroom Heq Hid Hok c'. rewrite Heq.
  destruct (decide (c = c')) as [<-|Hne].
  - rewrite Hroom, lookup_insert_eq. eauto.
  - rewrite lookup_insert_ne by done.
    destruct (rooms w !! c') as [room0|]; [|done].
    exists room0. split; [done|]. split; [apply sameIdentity_refl | done].
Qed.

(** What [addPlayerToRoom] does to a room that is there. *)
Lemma addPlayerToRoom_core (c playerId : string) (socket : Socket)
    (playerName : string) (w : World) (room : Room) :
  rooms w !! c = Some room →
  let w' := RoomManager.addPlayerToRoom c playerId socket playerName w in
  ∃ room',
    rooms w' = <[c := room']> (rooms w)
    ∧ roomCodes w' = roomCodes w ∧ timers w' = timers w ∧ now w' = now w
    ∧ openSockets w' = openSockets w ∧ outbox w' = outbox w
    ∧ gameManager w'
      = GameManager.addPlayer
          (GameManager.mkPlayer playerId playerName socket false 0 [] [] (now w))
          (gameManager w)
    ∧ sameIdentity room room'
    ∧ r_gameStarted room' = r_gameStarted room
    ∧ r_settings room' = r_settings room
    ∧ r_hostId room'
      = (if js_size (r_players room) =? 0 then playerId else r_hostId room)
    ∧ r_players room'
      = js_set playerId
          (mkPlayer playerId playerName socket
                    (bool_decide (playerId = r_hostId room')) false 0)
          (r_players room)
    ∧ (playersOk room → playersOk room').
Proof.
  intros Hroom w'. unfold w', RoomManager.addPlayerToRoom. rewrite Hroom.
  assert (∀ isHost room1,
            sameIdentity room room1 →
            r_gameStarted room1 = r_gameStarted room →
            r_settings room1 = r_settings room →
            r_players room1 = r_players room →
            r_hostId room1
            = (if js_size (r_players room) =? 0 then playerId
               else r_hostId room) →
            isHost = bool_decide (playerId = r_hostId room1) →
            let room' :=
              set_players
                (js_set playerId
                   (mkPlayer playerId playerName socket isHost false 0)
                   (r_players room1)) room1 in
            sameIdentity room room'
            ∧ r_gameStarted room' = r_gameStarted room
            ∧ r_settings room' = r_settings room
            ∧ r_hostId room'
              = (if js_size (r_players room) =? 0 then playerId
                 else r_hostId room)
            ∧ r_players room'
              = js_set playerId
                  (mkPlayer playerId playerName socket
                            (bool_decide (playerId = r_hostId room')) false 0)
                  (r_players room)
            ∧ (playersOk room → playersOk room')) as Hcase.
  { intros isHost room1 Hid Hgs Hst Hps Hhost -> room'.
    split; [exact Hid|]. split; [exact Hgs|]. split; [exact Hst|].
    split; [exact Hhost|]. split; [cbn; by rewrite Hps|].
    intros (Hnd & Hentries & Hpresent). unfold playersOk. cbn. rewrite Hps.
    fold_keys.
    split; [|split].
    - rewrite js_keys_set. case_decide; [done|].
      apply NoDup_app. split; [done|]. split; [|apply NoDup_singleton].
      intros x Hx ->%list_elem_of_singleton. done.
    - intros k p [[-> ->]|Hin]%js_set_elem; [done|].
      destruct (Hentries k p Hin) as [Hk Hflag]. split; [done|].
      rewrite Hflag, Hhost.
      destruct (Z.eqb_spec (js_size (r_players room)) 0) as [Hempty|_]; [|done].
      apply js_size_nil in Hempty. rewrite Hempty in Hin.
      by apply not_elem_of_nil in Hin.
    - intros _. rewrite js_keys_set, Hhost.
      destruct (Z.eqb_spec (js_size (r_players room)) 0) as [Hempty|Hne].
      + apply js_size_nil in Hempty. rewrite Hempty. cbn.
        case_decide; [done|]. apply list_elem_of_here.
      + assert (r_hostId room ∈ js_keys (r_players room)).
        { apply Hpresent. intros Hnil. rewrite Hnil in Hne. done. }
        case_decide; [done|]. apply elem_of_app. by left. }
  destruct (Z.eqb_spec (js_size (r_players room)) 0) as [Hempty|Hne];
    [|destruct (decide (r_hostId room = playerId)) as [Hhost|Hhost]];
    cbn; (eexists; split; [reflexivity|]; do 6 (split; [reflexivity|]));
    [apply (Hcase true (set_host playerId playerName room))
    |apply (Hcase true room) | apply (Hcase false room)];
    try done; try apply sameIdentity_refl;
    try (by apply Z.eqb_eq in Hempty as ->);
    try (by apply Z.eqb_neq in Hne as ->);
    try (cbn; by rewrite bool_decide_eq_true_2);
    try (by rewrite bool_decide_eq_false_2).
Qed.

Lemma deliveries_elem (m : Message) (open : list Socket)
    (exclude : option string) (ps : list (string * Player))
    (e : Socket * Message) :
  e ∈ deliveries m open exclude ps
  ↔ ∃ k p, (k, p) ∈ ps ∧ Some k ≠ exclude ∧ p_socket p ∈ open
           ∧ e = (p_socket p, m).
Proof.
  unfold deliveries. rewrite list_elem_of_fmap. split.
  - intros ([k p] & -> & [[??] ?]%list_elem_of_filter). by exists k, p.
  - intros (k & p & ? & ? & ? & ->). exists (k, p). split; [done|].
    by apply list_elem_of_filter.
Qed.

(** What [removePlayerFromRoom] does to a room that is there. *)
Lemma removePlayerFromRoom_core (c playerId : string) (w : World) (room : Room) :
  rooms w !! c = Some room →
  let w' := RoomManager.removePlayerFromRoom c playerId w in
  let remaining := js_delete playerId (r_players room) in
  ∃ room',
    rooms w' = <[c := room']> (rooms w)
    ∧ roomCodes w' = roomCodes w ∧ now w' = now w
    ∧ openSockets w' = openSockets w
    ∧ gameManager w' = GameManager.removePlayer playerId (gameManager w)
    ∧ sameIdentity room room'
    ∧ r_gameStarted room' = r_gameStarted room
    ∧ r_settings room' = r_settings room
    ∧ js_keys (r_players room') = js_keys remaining
    ∧ (playerId ≠ r_hostId room ∨ remaining = [] →
       r_players room' = remaining ∧ r_hostId room' = r_hostId room
       ∧ r_hostName room' = r_hostName room ∧ outbox w' = outbox w)
    ∧ (∃ l, outbox w' = outbox w ++ l
            ∧ ∀ e, e ∈ l →
                   e.1 ∈ openSockets w
                   ∧ ∃ k p, (k, p) ∈ r_players room' ∧ e.1 = p_socket p)
    ∧ timers w'
      = timers w ++ (if decide (remaining = [])
                     then [(now w + RoomManager.evictionDelay, c)] else [])
    ∧ (playersOk room → playersOk room').
Proof.
  intros Hroom w' remaining. unfold w', RoomManager.removePlayerFromRoom.
  rewrite Hroom. cbn. fold remaining.
  assert (playersOk room → NoDup (js_keys remaining)
          ∧ ∀ k p, (k, p) ∈ remaining →
                   k ≠ playerId ∧ p_id p = k
                   ∧ p_isHost p = bool_decide (k = r_hostId room)) as Hrem.
  { intros (Hnd & Hentries & _). split.
    - unfold remaining. rewrite js_keys_delete. by apply NoDup_filter.
    - intros k p [Hin Hne]%js_delete_elem.
      destruct (Hentries k p Hin). done. }
  destruct (decide (playerId = r_hostId room ∧ remaining ≠ [])) as [[Hhost Hsome]|Hno].
  - (* the host leaves, others remain *)
    rewrite bool_decide_eq_true_2 by done.
    destruct remaining as [|[k p] rest] eqn:Hremaining; [done|].
    assert ((js_size ((k, p) :: rest) >? 0) = true) as ->.
    { unfold js_size. simpl length. apply Z.gtb_lt. lia. }
    cbn. rewrite manager_broadcast_spec. cbn. rewrite lookup_insert_eq.
    cbn -[deliveries]. rewrite insert_insert_eq.
    eexists. split; [reflexivity|]. do 4 (split; [reflexivity|]).
    split; [by repeat split|]. do 2 (split; [reflexivity|]).
    split; [reflexivity|]. split; [intros [?|?]; done|].
    split; [|split; [by rewrite app_nil_r|]].
    + eexists. split; [reflexivity|].
      intros e (k' & p' & Hin & _ & Hopen & ->)%deliveries_elem. cbn. eauto.
    + intros Hok. destruct (Hrem Hok) as [Hnd Hentries].
      unfold playersOk. cbn. fold_keys.
      change (js_keys ((k, set_isHost true p) :: rest))
        with (js_keys ((k, p) :: rest)).
      destruct (Hentries k p ltac:(apply list_elem_of_here)) as (_ & Hk & _).
      split; [done|]. split.
      * intros k' p' [[= -> ->]|Hin]%elem_of_cons.
        { cbn. by rewrite Hk, bool_decide_eq_true_2. }
        destruct (Hentries k' p' ltac:(by apply elem_of_cons; right))
          as (Hne & Hk' & Hflag).
        split; [done|]. rewrite Hflag, Hk, <- Hhost.
        rewrite bool_decide_eq_false_2 by done.
        rewrite bool_decide_eq_false_2; [done|]. intros ->.
        apply NoDup_cons in Hnd as [Hnotin _]. apply Hnotin.
        apply js_keys_elem. eauto.
      * intros _. rewrite Hk. apply list_elem_of_here.
  - (* nobody takes over *)
    assert ((bool_decide (playerId = r_hostId room)
             && (js_size remaining >? 0)) = false) as ->.
    { apply andb_false_iff.
      destruct (decide (playerId = r_hostId room)) as [Hhost|Hhost];
        [right | left; by apply bool_decide_eq_false_2].
      destruct remaining; [done|]. exfalso. by apply Hno. }
    assert (∀ w0 : World,
              rooms w0 = <[c := set_players remaining room]> (rooms w) →
              timers w0 = timers w → now w0 = now w →
              let w1 := if js_size remaining =? 0
                        then set_timers
                               (timers w0
                                ++ [(now w0 + RoomManager.evictionDelay, c)]) w0
                        else w0 in
              rooms w1 = <[c := set_players remaining room]> (rooms w)
              ∧ roomCodes w1 = roomCodes w0 ∧ now w1 = now w
              ∧ openSockets w1 = openSockets w0
              ∧ gameManager w1 = gameManager w0
              ∧ outbox w1 = outbox w0
              ∧ timers w1
                = timers w ++ (if decide (remaining = [])
                               then [(now w + RoomManager.evictionDelay, c)]
                               else [])) as Htimer.
    { intros w0 Hrooms Htimers Hnow w1. unfold w1.
      destruct (Z.eqb_spec (js_size remaining) 0) as [Hz|Hz].
      - apply js_size_nil in Hz. rewrite decide_True by done. cbn.
        by rewrite Htimers, Hnow.
      - rewrite decide_False by (by rewrite <- js_size_nil).
        by rewrite app_nil_r. }
    cbn.
    edestruct (Htimer (set_gameManager
                         (GameManager.removePlayer playerId (gameManager w))
                         (set_rooms (<[c := set_players remaining room]>
                                       (rooms w)) w)))
      as (Hr & Hc & Hn & Ho & Hg & Hout & Ht); [done..|].
    eexists. split; [exact Hr|]. split; [exact Hc|]. split; [exact Hn|].
    split; [exact Ho|]. split; [exact Hg|]. split; [by repeat split|].
    do 3 (split; [reflexivity|]).
    split; [intros _; do 3 (split; [reflexivity|]); exact Hout|].
    split; [|split; [exact Ht|]].
    + exists []. rewrite app_nil_r. split; [exact Hout|].
      by intros e ?%not_elem_of_nil.
    + intros Hok. destruct (Hrem Hok) as [Hnd Hentries].
      destruct Hok as (_ & _ & Hpresent).
      unfold playersOk. cbn. split; [done|]. split.
      * intros k p Hin. by destruct (Hentries k p Hin) as (_ & ? & ?).
      * intros Hsome.
        assert (playerId ≠ r_hostId room) as Hne.
        { intros Hhost. by apply Hno. }
        fold_keys. unfold remaining. rewrite js_keys_delete.
        apply list_elem_of_filter. split; [done|]. apply Hpresent.
        intros Hnil. apply Hsome. unfold remaining. by rewrite Hnil.
Qed.

(** ** One message *)

Lemma messageStep_refl socket roomCode w : messageStep socket roomCode w w.
Proof.
  split; [by apply roomsEvolve_same|]. do 5 (split; [done|]).
  split; [split; [lia | done]|]. split.
  - exists []. rewrite app_nil_r. split; [done|]. by intros e ?%not_elem_of_nil.
  - exists []. rewrite app_nil_r. split; [done|]. by intros e ?%not_elem_of_nil.
Qed.

(** After a step, more is sent: to the socket of the connection or to
    open sockets of members. *)
Lemma messageStep_outbox socket roomCode w w1 (l : list (Socket * Message)) :
  messageStep socket roomCode w w1 →
  (∀ e, e ∈ l →
        e.1 = socket
        ∨ (e.1 ∈ openSockets w1 ∧ e.1 ∈ memberSockets roomCode w1)) →
  messageStep socket roomCode w (add_outbox l w1).
Proof.
  intros (Hev & Hother & Hcodes & Hnow & Hopen & Hpres & Hcount & Hsent & Harmed) Hl.
  split; [exact Hev|]. split; [exact Hother|]. do 3 (split; [done|]).
  split; [exact Hpres|]. split; [exact Hcount|]. split; [|exact Harmed].
  destruct Hsent as (sent & Hout & Hsent). exists (sent ++ l). cbn.
  rewrite Hout, app_assoc. split; [done|].
  intros e [Hin|Hin]%elem_of_app; [by apply Hsent|].
  destruct (Hl e Hin) as [?|[??]]; [by left|]. right. by rewrite <- Hopen.
Qed.

Lemma messageStep_broadcast socket roomCode w w1 m ex :
  messageStep socket roomCode w w1 →
  messageStep socket roomCode w (Server.broadcastToRoom roomCode m ex w1).
Proof.
  intros Hstep. rewrite server_broadcast_spec.
  destruct (rooms w1 !! roomCode) as [room|] eqn:Hroom; [|done].
  apply messageStep_outbox; [done|].
  intros e (k & p & Hin & _ & Hopen & ->)%deliveries_elem. right. cbn.
  split; [done|]. unfold memberSockets. rewrite Hroom.
  apply list_elem_of_fmap. exists p. split; [done|].
  unfold js_values. apply list_elem_of_fmap. by exists (k, p).
Qed.

Lemma messageStep_send socket roomCode w w1 m :
  messageStep socket roomCode w w1 →
  messageStep socket roomCode w (send socket m w1).
Proof.
  intros Hstep. change (send socket m w1) with (add_outbox [(socket, m)] w1).
  apply messageStep_outbox; [done|].
  intros e ->%list_elem_of_singleton. by left.
Qed.

(** After a step, the room of the message is given a new state, a new
    host name or new settings; its players and its host id stay. *)
Lemma messageStep_room socket roomCode w w1 room1 room1' :
  messageStep socket roomCode w w1 →
  rooms w1 !! roomCode = Some room1 →
  sameIdentity room1 room1' →
  r_players room1' = r_players room1 →
  r_hostId room1' = r_hostId room1 →
  messageStep socket roomCode w
    (set_rooms (<[roomCode := room1']> (rooms w1)) w1).
Proof.
  intros (Hev & Hother & Hcodes & Hnow & Hopen & Hpres & Hcount & Hsent & Harmed)
         Hroom1 Hid Hps Hhost.
  split; [|split].
  - eapply roomsEvolve_trans; [exact Hev|].
    eapply roomsEvolve_insert; [exact Hroom1 | done | exact Hid |].
    unfold playersOk. by rewrite Hps, Hhost.
  - intros c Hne. cbn. rewrite lookup_insert_ne by done. by apply Hother.
  - do 3 (split; [done|]). split; [exact Hpres|]. split; [exact Hcount|].
    split; [|exact Harmed].
    destruct Hsent as (sent & Hout & Hsent). exists sent. split; [done|].
    intros e He. destruct (Hsent e He) as [?|[? Hmem]]; [by left|]. right.
    split; [done|]. revert Hmem. unfold memberSockets. cbn.
    by rewrite Hroom1, lookup_insert_eq, Hps.
Qed.

Lemma presenceOk_add (w w' : World) playerId playerName socket t :
  gameManager w'
  = GameManager.addPlayer
      (GameManager.mkPlayer playerId playerName socket false 0 [] [] t)
      (gameManager w) →
  presenceOk w → presenceOk w'.
Proof.
  intros Hg Hok k p. rewrite Hg. cbn.
  destruct (decide (playerId = k)) as [->|Hne].
  - rewrite lookup_insert_eq. by intros [= <-].
  - rewrite lookup_insert_ne by done. apply Hok.
Qed.

Lemma presenceOk_remove (w w' : World) playerId :
  gameManager w' = GameManager.removePlayer playerId (gameManager w) →
  presenceOk w → presenceOk w'.
Proof.
  intros Hg Hok k p. rewrite Hg. cbn.
  intros [_ Hp]%lookup_delete_Some. by apply Hok.
Qed.

Lemma messageStep_add socket roomCode playerId s playerName w :
  messageStep socket roomCode w
    (RoomManager.addPlayerToRoom roomCode playerId s playerName w).
Proof.
  destruct (rooms w !! roomCode) as [room|] eqn:Hroom.
  - destruct (addPlayerToRoom_core roomCode playerId s playerName w room Hroom)
      as (room' & Hrooms & Hcodes & Htimers & Hnow & Hopen & Hout & Hg & Hid
          & _ & _ & _ & _ & Hok).
    split; [by eapply roomsEvolve_insert|]. split.
    { intros c Hne. rewrite Hrooms. by rewrite lookup_insert_ne. }
    do 3 (split; [done|]). split; [by eapply presenceOk_add|].
    split; [rewrite Hg; cbn; split; [lia | done]|]. split.
    + exists []. rewrite app_nil_r. split; [done|]. by intros e ?%not_elem_of_nil.
    + exists []. rewrite app_nil_r. split; [done|]. by intros e ?%not_elem_of_nil.
  - unfold RoomManager.addPlayerToRoom. rewrite Hroom. apply messageStep_refl.
Qed.

Lemma messageStep_remove socket roomCode playerId w :
  messageStep socket roomCode w
    (RoomManager.removePlayerFromRoom roomCode playerId w).
Proof.
  destruct (rooms w !! roomCode) as [room|] eqn:Hroom.
  - destruct (removePlayerFromRoom_core roomCode playerId w room Hroom)
      as (room' & Hrooms & Hcodes & Hnow & Hopen & Hg & Hid & _ & _ & _ & _
          & (sent & Hout & Hsent) & Htimers & Hok).
    split; [by eapply roomsEvolve_insert|]. split.
    { intros c Hne. rewrite Hrooms. by rewrite lookup_insert_ne. }
    do 3 (split; [done|]). split; [by eapply presenceOk_remove|].
    split; [rewrite Hg; cbn; split; [lia | done]|]. split.
    + exists sent. split; [done|]. intros e He.
      destruct (Hsent e He) as (Hopen' & k & p & Hin & Hsock). right.
      split; [done|]. unfold memberSockets. rewrite Hrooms, lookup_insert_eq.
      rewrite Hsock. apply list_elem_of_fmap. exists p. split; [done|].
      unfold js_values. apply list_elem_of_fmap. by exists (k, p).
    + eexists. split; [exact Htimers|]. intros tm. case_decide.
      * by intros ->%list_elem_of_singleton.
      * by intros ?%not_elem_of_nil.
  - unfold RoomManager.removePlayerFromRoom. rewrite Hroom.
    apply messageStep_refl.
Qed.

(** A step after a step on the same room. *)
Lemma messageStep_then_remove socket roomCode playerId w :
  ∀ m ex,
    messageStep socket roomCode w
      (Server.broadcastToRoom roomCode m ex
         (RoomManager.removePlayerFromRoom roomCode playerId w)).
Proof. intros. apply messageStep_broadcast, messageStep_remove. Qed.

(** What one message does, whatever the message. *)
Lemma handleMessage_step socket roomCode o data c w :
  messageStep socket roomCode w
    (Server.handleMessage socket roomCode o data c w).2.
Proof.
  unfold Server.handleMessage, RoomManager.getRoom.
  repeat case_decide; cbn [snd].
  - (* join *)
    set (w1 := RoomManager.addPlayerToRoom _ _ _ _ w).
    assert (messageStep socket roomCode w w1) by apply messageStep_add.
    destruct (rooms w1 !! roomCode); [|done].
    by apply messageStep_broadcast, messageStep_send.
  - (* leave *)
    destruct (truthy (Server.d_playerId data)); cbn [snd];
      [apply messageStep_then_remove | apply messageStep_refl].
  - (* chat *) apply messageStep_broadcast, messageStep_refl.
  - (* startGame *)
    destruct (rooms w !! roomCode) as [room|] eqn:Hroom;
      [|apply messageStep_refl].
    destruct (_ && _); cbn [snd]; [|apply messageStep_refl].
    apply messageStep_broadcast.
    by apply (messageStep_room _ _ _ _ room);
      [apply messageStep_refl | | repeat split | |].
  - (* callNumber *)
    destruct (rooms w !! roomCode) as [room|] eqn:Hroom;
      [|apply messageStep_refl].
    destruct (_ && _); cbn [snd]; [|apply messageStep_refl].
    apply messageStep_broadcast, messageStep_refl.
  - (* markNumber *) apply messageStep_broadcast, messageStep_refl.
  - (* claimWin *)
    destruct (GameManager.verifyWin _ _ _).1; [|apply messageStep_refl].
    set (w1 := Server.broadcastToRoom _ _ _ w).
    assert (messageStep socket roomCode w w1)
      by apply messageStep_broadcast, messageStep_refl.
    destruct (rooms w1 !! roomCode) as [room|] eqn:Hroom; cbn [snd]; [|done].
    by apply (messageStep_room _ _ _ _ room); [ | | repeat split | |].
  - (* ping *) apply messageStep_send, messageStep_refl.
  - (* playerReady *) apply messageStep_broadcast, messageStep_refl.
  - (* updateSettings *)
    destruct (rooms w !! roomCode) as [room|] eqn:Hroom;
      [|apply messageStep_refl].
    case_bool_decide; cbn [snd]; [|apply messageStep_refl].
    apply messageStep_broadcast.
    by apply (messageStep_room _ _ _ _ room);
      [apply messageStep_refl | | repeat split | |].
  - apply messageStep_refl.
Qed.

Lemma handleEvent_step socket roomCode o event c w :
  messageStep socket roomCode w
    (Server.handleEvent socket roomCode o event c w).2.
Proof.
  destruct event as [data|]; cbn.
  - apply handleMessage_step.
  - apply messageStep_send, messageStep_refl.
Qed.

Lemma handleClose_step socket roomCode c w :
  messageStep socket roomCode w (Server.handleClose roomCode c w).
Proof.
  unfold Server.handleClose. destruct (truthy (Server.c_playerId c)).
  - apply messageStep_then_remove.
  - apply messageStep_refl.
Qed.

(** ** The invariant *)

Lemma Inv_fields (w w' : World) :
  rooms w' = rooms w → roomCodes w' = roomCodes w →
  GameManager.onlinePlayers (gameManager w')
  = GameManager.onlinePlayers (gameManager w) →
  Inv w → Inv w'.
Proof.
  intros Hr Hc Hg (Hreg & Hpres & Hplayers). unfold Inv, registryOk, presenceOk.
  rewrite Hr, Hc, Hg. done.
Qed.

Lemma Inv_initial (open : list Socket) : Inv (initialWorld open).
Proof.
  split; [|split].
  - intros c. cbn. rewrite !lookup_empty. done.
  - intros k p. cbn. by rewrite lookup_empty.
  - intros c room. cbn. by rewrite lookup_empty.
Qed.

Lemma Inv_messageStep socket roomCode w w' :
  messageStep socket roomCode w w' → Inv w → Inv w'.
Proof.
  intros (Hev & _ & Hcodes & _ & _ & Hpres & _) (Hreg & Hpresence & Hplayers).
  split; [|split; [by apply Hpres|]].
  - intros c. specialize (Hev c). destruct (Hreg c) as [Hroom Hcode].
    rewrite Hcodes. split; [|exact Hcode].
    destruct (rooms w !! c) as [room|]; [|by rewrite Hev].
    destruct Hev as (room' & -> & Hid & _).
    intros ? [= <-]. destruct Hid as (_ & -> & _). by apply Hroom.
  - intros c room' Hroom'. specialize (Hev c).
    destruct (rooms w !! c) as [room|] eqn:Hroom; [|congruence].
    destruct Hev as (room2 & Hroom2 & _ & Hok).
    assert (room2 = room') as <- by congruence. eauto.
Qed.

Lemma Inv_createRoom roomId playerId rs data w result w' :
  RoomManager.createRoom roomId playerId rs data w = Some (result, w') →
  Inv w → Inv w'.
Proof.
  unfold RoomManager.createRoom, RoomManager.generateRoomCode.
  destruct (RoomManager.pickCode rs (roomCodes w)) as [code|] eqn:Hpick;
    [|done].
  intros [= _ <-] (Hreg & Hpres & Hplayers).
  apply pickCode_fresh in Hpick. split; [|split; [exact Hpres|]].
  - intros c. cbn. destruct (decide (code = c)) as [<-|Hne].
    + rewrite !lookup_insert_eq. split; [by intros ? [= <-] | congruence].
    + rewrite !lookup_insert_ne by done. apply Hreg.
  - intros c room. cbn. destruct (decide (code = c)) as [<-|Hne].
    + rewrite lookup_insert_eq. intros [= <-]. split; [constructor|].
      split; [by intros k p ?%not_elem_of_nil | done].
    + rewrite lookup_insert_ne by done. apply Hplayers.
Qed.

Lemma Inv_createRoomNull rs w code w' :
  createRoomNull rs w = Some (code, w') → Inv w → Inv w'.
Proof.
  unfold createRoomNull, RoomManager.generateRoomCode.
  destruct (RoomManager.pickCode rs (roomCodes w)) as [code'|] eqn:Hpick;
    [|done].
  intros [= <- <-] (Hreg & Hpres & Hplayers).
  split; [|split; [exact Hpres | exact Hplayers]].
  intros c. cbn. destruct (Hreg c) as [Hroom Hcode].
  destruct (decide (code' = c)) as [<-|Hne].
  - rewrite lookup_insert_eq. split; [|congruence].
    intros room Hin. by destruct (Hroom room Hin).
  - by rewrite lookup_insert_ne.
Qed.

Lemma Inv_evictionCheck c w : Inv w → Inv (RoomManager.evictionCheck c w).
Proof.
  intros Hinv. destruct (roomIsEmpty c w) eqn:Hempty.
  - rewrite (evictionCheck_removes _ _ Hempty).
    destruct Hinv as (Hreg & Hpres & Hplayers). split; [|split; [exact Hpres|]].
    + intros c'. cbn. destruct (decide (c = c')) as [<-|Hne].
      * rewrite !lookup_delete_eq. done.
      * rewrite !lookup_delete_ne by done. apply Hreg.
    + intros c' room. cbn. intros [_ ?]%lookup_delete_Some. eauto.
  - by rewrite (evictionCheck_keeps _ _ Hempty).
Qed.

Lemma Inv_advance t w : Inv w → Inv (advance t w).
Proof.
  intros Hinv. unfold advance.
  generalize (filter (fun tm : Z * string => tm.1 <= t) (timers w)).
  intros due.
  assert (Inv (set_now (Z.max (now w) t)
                 (set_timers
                    (filter (fun tm : Z * string => ¬ tm.1 <= t) (timers w))
                    w))) as Hstart by (by eapply Inv_fields; [..|exact Hinv]).
  revert Hstart. generalize (set_now (Z.max (now w) t)
                 (set_timers
                    (filter (fun tm : Z * string => ¬ tm.1 <= t) (timers w))
                    w)).
  induction due as [|tm due IH]; intros w0 Hw0; cbn; [done|].
  apply IH. by apply Inv_evictionCheck.
Qed.

Lemma Inv_step (e : Event) (w : World) : Inv w → Inv (step e w).
Proof.
  intros Hinv. destruct e as [roomId playerId rs data|rs|playerId roomCode
    |roomCode rs|socket roomCode o event c|roomCode c|t|open]; cbn.
  - destruct (RoomManager.createRoom _ _ _ _ _) as [[result w']|] eqn:Hcreate;
      [by eapply Inv_createRoom | done].
  - destruct (createRoomNull _ _) as [[code w']|] eqn:Hcreate;
      [by eapply Inv_createRoomNull | done].
  - unfold RoomManager.joinRoom. by repeat case_match.
  - unfold Boards.startGame.
    destruct (Boards.generate75BallBoard rs) as [[board rest]|]; [|done].
    by eapply Inv_fields; [..|exact Hinv].
  - eapply Inv_messageStep; [apply handleEvent_step | done].
  - eapply Inv_messageStep; [apply (handleClose_step 0%nat) | done].
  - by apply Inv_advance.
  - by eapply Inv_fields; [..|exact Hinv].
Qed.

Lemma Inv_run (es : list Event) (w : World) : Inv w → Inv (run es w).
Proof.
  revert w. induction es as [|e es IH]; intros w Hinv; cbn; [done|].
  apply IH. by apply Inv_step.
Qed.

(** A code that is in use with no room stored under it stays so. *)
Lemma orphan_step (e : Event) (w : World) (c : string) :
  is_Some (roomCodes w !! c) → rooms w !! c = None →
  roomCodes (step e w) !! c = roomCodes w !! c
  ∧ rooms (step e w) !! c = None.
Proof.
  intros Hcode Hroom.
  assert (∀ socket roomCode w', messageStep socket roomCode w w' →
            roomCodes w' !! c = roomCodes w !! c ∧ rooms w' !! c = None)
    as Hstep.
  { intros socket roomCode w' (Hev & _ & -> & _). split; [done|].
    specialize (Hev c). by rewrite Hroom in Hev. }
  assert (∀ rs code, RoomManager.pickCode rs (roomCodes w) = Some code →
            code ≠ c) as Hfresh.
  { intros rs code Hpick%pickCode_fresh ->. rewrite Hpick in Hcode.
    by destruct Hcode. }
  destruct e as [roomId playerId rs data|rs|playerId roomCode
    |roomCode rs|socket roomCode o event conn|roomCode conn|t|open];
    cbn [step].
  - unfold RoomManager.createRoom, RoomManager.generateRoomCode.
    destruct (RoomManager.pickCode rs (roomCodes w)) as [code|] eqn:Hpick;
      [|done].
    cbn. by rewrite !lookup_insert_ne by eauto.
  - unfold createRoomNull, RoomManager.generateRoomCode.
    destruct (RoomManager.pickCode rs (roomCodes w)) as [code|] eqn:Hpick;
      [|done].
    cbn. by rewrite lookup_insert_ne by eauto.
  - unfold RoomManager.joinRoom. by repeat case_match.
  - unfold Boards.startGame.
    by destruct (Boards.generate75BallBoard rs) as [[board rest]|].
  - eapply Hstep, handleEvent_step.
  - eapply Hstep, (handleClose_step 0%nat).
  - destruct (advance_lookup c t w) as [-> ->].
    unfold roomIsEmpty. rewrite Hroom, andb_false_r. done.
  - done.
Qed.

(** The create request with the body [null] leaves its code in use with
    no room stored under it. *)
Lemma createRoomNull_leaves_code :
  let w := run [HttpCreateRoomNull [0; 1 # 12]%Q] (initialWorld []) in
  roomCodes w !! Scenario.code = Some Scenario.code
  ∧ rooms w !! Scenario.code = None
  ∧ GameManager.totalRoomsCreated (gameManager w) = 0.
Proof. vm_compute. done. Qed.

(** X6. In every state that the process reaches, the room stored under
    a code carries that code, and the code is in use, registered under
    itself: no two live rooms share a code, and no room lives under a
    code that is free. The converse does not hold of the code, since
    [createRoom] registers the code before it reads its argument; and a
    code that is in use with no room stored under it is never freed and
    never given to a room, whatever happens later. *)
Theorem rooms_live_under_registered_codes
    (es es' : list Event) (open : list Socket) (c : string) :
  let w := run es (initialWorld open) in
  (∀ room, rooms w !! c = Some room →
           r_code room = c ∧ roomCodes w !! c = Some c)
  ∧ (∀ v, roomCodes w !! c = Some v → v = c)
  ∧ (is_Some (roomCodes w !! c) → rooms w !! c = None →
     roomCodes (run es' w) !! c = Some c ∧ rooms (run es' w) !! c = None).
Proof.
  intros w. destruct (Inv_run es _ (Inv_initial open)) as (Hreg & _).
  fold w in Hreg. destruct (Hreg c) as [Hroom Hcode].
  split; [exact Hroom|]. split; [exact Hcode|].
  generalize w Hcode. clear. intros w Hself [v Hv] Hnone.
  rewrite (Hself v Hv) in Hv. clear Hself. revert w Hv Hnone.
  induction es' as [|e es' IH]; intros w Hv Hnone; [done|].
  change (run (e :: es') w) with (run es' (step e w)).
  destruct (orphan_step e w c) as [Hcodes Hrooms]; [by eexists | done |].
  apply IH; [by rewrite Hcodes | done].
Qed.

(** X7. In every state that the process reaches and in every room, no
    player id occurs twice, every player is stored under its own id, the
    player that [hostId] names is flagged as host and no other player
    is, and a room that is not empty has its host among its players. *)
Theorem one_host_per_room
    (es : list Event) (open : list Socket) (c : string) (room : Room) :
  rooms (run es (initialWorld open)) !! c = Some room →
  NoDup (js_keys (r_players room))
  ∧ (∀ k p, (k, p) ∈ r_players room →
            p_id p = k ∧ (p_isHost p = true ↔ k = r_hostId room))
  ∧ (r_players room ≠ [] →
     ∃ host, js_get (r_hostId room) (r_players room) = Some host
             ∧ p_isHost host = true).
Proof.
  intros Hroom.
  destruct (Inv_run es _ (Inv_initial open)) as (_ & _ & Hplayers).
  destruct (Hplayers c room Hroom) as (Hnd & Hentries & Hpresent).
  split; [done|]. split.
  - intros k p Hin. destruct (Hentries k p Hin) as [Hid Hflag].
    split; [done|]. rewrite Hflag. apply bool_decide_eq_true.
  - intros Hsome. specialize (Hpresent Hsome).
    destruct (js_get (r_hostId room) (r_players room)) as [host|] eqn:Hget.
    + exists host. split; [done|].
      assert ((r_hostId room, host) ∈ r_players room) as Hin.
      { clear -Hget. induction (r_players room) as [|[k v] m IH];
          simpl in *; [done|].
        destruct (decide (k = r_hostId room)) as [->|Hne].
        - injection Hget as ->. apply list_elem_of_here.
        - apply elem_of_cons. right. by apply IH. }
      destruct (Hentries _ _ Hin) as [_ ->]. by apply bool_decide_eq_true_2.
    + by apply js_get_None in Hget.
Qed.

(** X8. In every state that the process reaches, every player of the
    presence directory is stored under its own id with an empty board,
    no marked number, the score 0 and not ready: the server never
    records a board, a mark, a score or a readiness. *)
Theorem presence_keeps_no_game_data
    (es : list Event) (open : list Socket) (k : string)
    (p : GameManager.Player) :
  GameManager.onlinePlayers (gameManager (run es (initialWorld open))) !! k
  = Some p →
  GameManager.id p = k
  ∧ GameManager.board p = [] ∧ GameManager.markedNumbers p = []
  ∧ GameManager.score p = 0 ∧ GameManager.isReady p = false.
Proof.
  intros Hp. destruct (Inv_run es _ (Inv_initial open)) as (_ & Hpres & _).
  by apply Hpres.
Qed.

(** The theorem at the room of the session, where B is host after A has
    left. *)
Lemma one_host_per_room_witness :
  rooms (run session (initialWorld [])) !! Scenario.code = Some sessionRoom
  ∧ ∃ host, js_get (r_hostId sessionRoom) (r_players sessionRoom) = Some host
            ∧ p_isHost host = true.
Proof.
  assert (rooms (run session (initialWorld [])) !! Scenario.code
          = Some sessionRoom) as Hroom by (vm_compute; reflexivity).
  split; [exact Hroom|].
  refine (proj2 (proj2 (one_host_per_room session [] Scenario.code sessionRoom
                          Hroom)) _).
  vm_compute. discriminate.
Defined.

(** The theorem at the player B of the session. *)
Lemma presence_keeps_no_game_data_witness :
  GameManager.onlinePlayers (gameManager (run session (initialWorld [])))
    !! "B"%string
  = Some (GameManager.mkPlayer "B" "B" 2%nat false 0 [] [] 2)
  ∧ GameManager.board (GameManager.mkPlayer "B" "B" 2%nat false 0 [] [] 2) = [].
Proof.
  assert (GameManager.onlinePlayers
            (gameManager (run session (initialWorld []))) !! "B"%string
          = Some (GameManager.mkPlayer "B" "B" 2%nat false 0 [] [] 2)) as Hp
    by (vm_compute; reflexivity).
  split; [exact Hp|].
  exact (proj1 (proj2 (presence_keeps_no_game_data session [] "B" _ Hp))).
Defined.

(** ** Messages and rooms *)

Lemma keepsRooms_of_step socket roomCode w w' :
  messageStep socket roomCode w w' → keepsRooms roomCode w w'.
Proof.
  intros (Hev & Hother & Hcodes & Hnow & _). split; [done|]. split; [done|].
  intros c. specialize (Hev c). specialize (Hother c).
  destruct (rooms w !! c) as [room|]; [|done].
  destruct Hev as (room' & Hroom' & Hid & _). exists room'.
  split; [done|]. split; [done|]. intros Hne. specialize (Hother Hne). congruence.
Qed.

(** X9. Handling a WebSocket frame, or the end of a connection, neither
    creates nor removes a room and frees or takes no code; every room
    keeps its id, code, name, game type, stake, capacity and creation
    time, and every room other than the one of the connection stays
    exactly as it was. *)
Theorem messages_keep_rooms
    (socket : Socket) (roomCode : string) (o : Server.Oracle)
    (event : option Server.Data) (c : Server.Conn) (w : World) :
  keepsRooms roomCode w (Server.handleEvent socket roomCode o event c w).2
  ∧ keepsRooms roomCode w (Server.handleClose roomCode c w).
Proof.
  split.
  - eapply keepsRooms_of_step, handleEvent_step.
  - eapply keepsRooms_of_step, (handleClose_step socket).
Qed.

(** X10. Whatever is sent while a WebSocket frame is handled goes to the
    socket of the connection or to an open socket of a player who is in
    the room of the connection afterwards; whatever is sent when a
    connection ends goes to such players only. Nothing is taken back
    from the outbox and nothing reaches a closed socket of a member or
    a player of another room only. *)
Theorem messages_stay_in_the_room
    (socket : Socket) (roomCode : string) (o : Server.Oracle)
    (event : option Server.Data) (c : Server.Conn) (w : World) :
  (let w' := (Server.handleEvent socket roomCode o event c w).2 in
   ∃ sent, outbox w' = outbox w ++ sent
           ∧ ∀ e, e ∈ sent →
                  e.1 = socket
                  ∨ (e.1 ∈ openSockets w ∧ e.1 ∈ memberSockets roomCode w'))
  ∧ (let w' := Server.handleClose roomCode c w in
     ∃ sent, outbox w' = outbox w ++ sent
             ∧ ∀ e, e ∈ sent →
                    e.1 ∈ openSockets w ∧ e.1 ∈ memberSockets roomCode w').
Proof.
  split.
  - intros w'. by destruct (handleEvent_step socket roomCode o event c w)
      as (_ & _ & _ & _ & _ & _ & _ & Hsent & _).
  - intros w'.
    destruct (handleClose_step 0%nat roomCode c w)
      as (_ & _ & _ & _ & _ & _ & _ & (sent & Hout & _) & _).
    exists sent. split; [done|]. intros e He.
    destruct (handleClose_step (S e.1) roomCode c w)
      as (_ & _ & _ & _ & _ & _ & _ & (sent' & Hout' & Hsent') & _).
    fold w' in Hout, Hout'. rewrite Hout in Hout'.
    apply app_inv_head in Hout' as <-.
    destruct (Hsent' e He) as [Heq|?]; [lia | done].
Qed.

(** ** Counters *)

Lemma evictionCheck_frame (c : string) (w : World) :
  gameManager (RoomManager.evictionCheck c w) = gameManager w
  ∧ now (RoomManager.evictionCheck c w) = now w
  ∧ outbox (RoomManager.evictionCheck c w) = outbox w
  ∧ timers (RoomManager.evictionCheck c w) = timers w.
Proof. unfold RoomManager.evictionCheck. by repeat case_match. Qed.

Lemma evictionChecks_frame (l : list (Z * string)) (w : World) :
  let w' := foldl (fun w' (tm : Z * string) =>
                     RoomManager.evictionCheck tm.2 w') w l in
  gameManager w' = gameManager w ∧ now w' = now w
  ∧ outbox w' = outbox w ∧ timers w' = timers w.
Proof.
  revert w. induction l as [|tm l IH]; intros w; cbn; [done|].
  destruct (IH (RoomManager.evictionCheck tm.2 w)) as (-> & -> & -> & ->).
  apply evictionCheck_frame.
Qed.

Lemma advance_frame (t : Z) (w : World) :
  gameManager (advance t w) = gameManager w
  ∧ now (advance t w) = Z.max (now w) t
  ∧ outbox (advance t w) = outbox w
  ∧ timers (advance t w)
    = filter (fun tm : Z * string => ¬ tm.1 <= t) (timers w).
Proof.
  unfold advance.
  by destruct (evictionChecks_frame
                 (filter (fun tm : Z * string => tm.1 <= t) (timers w))
                 (set_now (Z.max (now w) t)
                    (set_timers
                       (filter (fun tm : Z * string => ¬ tm.1 <= t) (timers w))
                       w))) as (-> & -> & -> & ->).
Qed.

Lemma counters_step (e : Event) (w : World) :
  Forall2 Z.le (counters w) (counters (step e w)).
Proof.
  assert (∀ a b c d a' b' c' d',
            a <= a' → b <= b' → c <= c' → d <= d' →
            Forall2 Z.le [a; b; c; d] [a'; b'; c'; d']) as Hle
    by (intros; by repeat constructor).
  assert (∀ socket roomCode w', messageStep socket roomCode w w' →
            Forall2 Z.le (counters w) (counters w')) as Hstep.
  { intros socket roomCode w' (_ & _ & _ & Hnow & _ & _ & (? & Ha & Hr) & _).
    apply Hle; lia. }
  destruct e as [roomId playerId rs data|rs|playerId roomCode
    |roomCode rs|socket roomCode o event c|roomCode c|t|open]; cbn [step].
  - unfold RoomManager.createRoom, RoomManager.generateRoomCode.
    destruct (RoomManager.pickCode rs (roomCodes w)); apply Hle; cbn; lia.
  - unfold createRoomNull, RoomManager.generateRoomCode.
    destruct (RoomManager.pickCode rs (roomCodes w)); apply Hle; cbn; lia.
  - unfold RoomManager.joinRoom. repeat case_match; apply Hle; cbn; lia.
  - unfold Boards.startGame.
    destruct (Boards.generate75BallBoard rs) as [[board rest]|];
      apply Hle; cbn; lia.
  - eapply Hstep, handleEvent_step.
  - eapply Hstep, (handleClose_step 0%nat).
  - destruct (advance_frame t w) as (Hg & Hnow & _). unfold counters.
    rewrite Hg, Hnow. apply Hle; lia.
  - apply Hle; cbn; lia.
Qed.

(** X11. No event makes a counter of the statistics smaller or turns the
    clock back: the players counted, the games counted as active and
    the rooms counted as created never decrease along a run, whoever
    leaves and whichever game ends or room is evicted. *)
Theorem counters_never_decrease (es : list Event) (w : World) :
  Forall2 Z.le (counters w) (counters (run es w)).
Proof.
  revert w. induction es as [|e es IH]; intros w.
  - cbn. do 4 (apply Forall2_cons; split; [lia|]). constructor.
  - change (run (e :: es) w) with (run es (step e w)).
    specialize (IH (step e w)). pose proof (counters_step e w) as Hstep.
    unfold counters in *.
    do 4 (apply Forall2_cons in IH as [? IH]).
    do 4 (apply Forall2_cons in Hstep as [? Hstep]).
    do 4 (apply Forall2_cons; split; [lia|]). constructor.
Qed.

(** ** Creating and listing rooms *)

Lemma pickCode_in_allCodes (rs : list Q) (codes : gmap string string)
    (code : string) :
  Forall unitDraw rs →
  RoomManager.pickCode rs codes = Some code → code ∈ allCodes.
Proof.
  induction rs as [| |r1 r2 rs IH] using list_pair_ind; simpl; [done..|].
  intros Hrs. apply Forall_cons in Hrs as [[??] Hrs].
  apply Forall_cons in Hrs as [[??] Hrs].
  destruct (decide (is_Some (codes !! RoomManager.makeCode r1 r2)));
    [by apply IH|].
  intros [= <-]. by apply makeCode_in_allCodes.
Qed.

(** X12. When every room lives under a registered code, the game type
    of the request is not a name that the table of patterns inherits
    from [Object.prototype], and [createRoom] returns, the code of the
    new room is a pair of words of the vocabulary that no live room
    had; the room is stored under it in the lobby, with no player, the
    room id as its provisional host id, the creation time of the clock
    and the win patterns of its game type, those of 75-ball for a game
    type that is none of the four; every other room is kept as it was,
    and one more room is counted. *)
Theorem createRoom_registers_fresh_room
    (roomId playerId : string) (rs : list Q) (data : RoomManager.CreateData)
    (w w' : World) (result : RoomManager.CreateResult) :
  registryOk w →
  Forall unitDraw rs →
  RoomManager.cd_gameType data ∉ inheritedNames →
  RoomManager.createRoom roomId playerId rs data w = Some (result, w') →
  let code := RoomManager.cr_roomCode result in
  code ∈ allCodes
  ∧ rooms w !! code = None ∧ roomCodes w !! code = None
  ∧ RoomManager.cr_roomId result = roomId
  ∧ RoomManager.cr_playerId result = playerId
  ∧ rooms w'
    = <[code := mkRoom roomId code (RoomManager.cd_roomName data) roomId
                       (RoomManager.cd_hostName data)
                       (RoomManager.cd_gameType data)
                       (RoomManager.cd_stake data)
                       (RoomManager.cd_maxPlayers data) [] false (now w)
                       (mkSettings true 7000
                          (RoomManager.getWinPatterns
                             (RoomManager.cd_gameType data)))]> (rooms w)
  ∧ roomCodes w' = <[code := code]> (roomCodes w)
  ∧ (∀ c, c ≠ code → rooms w' !! c = rooms w !! c)
  ∧ GameManager.totalRoomsCreated (gameManager w')
    = GameManager.totalRoomsCreated (gameManager w) + 1.
Proof.
  intros Hreg Hrs _.
  unfold RoomManager.createRoom, RoomManager.generateRoomCode.
  destruct (RoomManager.pickCode rs (roomCodes w)) as [code|] eqn:Hpick;
    [|done].
  intros [= <- <-]. cbn.
  pose proof (pickCode_fresh _ _ _ Hpick) as Hfresh.
  split; [by eapply pickCode_in_allCodes|]. split.
  { destruct (Hreg code) as [Hroom _]. apply eq_None_not_Some.
    intros [room Hin]. destruct (Hroom room Hin) as [_ Hused]. congruence. }
  do 5 (split; [done|]). split; [|done].
  intros c Hne. by rewrite lookup_insert_ne.
Qed.

(** The theorem at the first room of a process. *)
Lemma createRoom_registers_fresh_room_witness :
  RoomManager.createRoom "uuid-room" "uuid-host" [0; 1 # 12]%Q
    (RoomManager.mkCreateData "Hana" "Friday" 4 "75ball" 100)
    (initialWorld [])
  = Some (RoomManager.mkCreateResult Scenario.code "uuid-room" "uuid-host",
          firstRoom)
  ∧ Scenario.code ∈ allCodes
  ∧ rooms (initialWorld []) !! Scenario.code = None.
Proof.
  assert (RoomManager.createRoom "uuid-room" "uuid-host" [0; 1 # 12]%Q
            (RoomManager.mkCreateData "Hana" "Friday" 4 "75ball" 100)
            (initialWorld [])
          = Some (RoomManager.mkCreateResult Scenario.code "uuid-room"
                                             "uuid-host", firstRoom))
    as Hcreate by (vm_compute; reflexivity).
  split; [exact Hcreate|].
  assert (Forall unitDraw [0; 1 # 12]%Q) as Hrs
    by (apply unitDraws_check; vm_compute; reflexivity).
  assert ("75ball"%string ∉ inheritedNames) as Hname
    by (apply (bool_decide_unpack _); vm_compute; exact I).
  destruct (createRoom_registers_fresh_room
              "uuid-room" "uuid-host" [0; 1 # 12]%Q
              (RoomManager.mkCreateData "Hana" "Friday" 4 "75ball" 100)
              (initialWorld []) firstRoom
              (RoomManager.mkCreateResult Scenario.code "uuid-room"
                                          "uuid-host")
              (proj1 (Inv_initial [])) Hrs Hname Hcreate)
    as (Hcode & Hfree & _).
  split; [exact Hcode | exact Hfree].
Defined.

Lemma joinRoom_success_iff (playerId roomCode : string) (w : World) (room : Room) :
  rooms w !! roomCode = Some room →
  (RoomManager.joinRoom playerId roomCode w).1
  = (if isAvailable room then
       RoomManager.JoinSuccess playerId (r_name room) (r_hostName room)
         (r_maxPlayers room) (r_gameType room) (r_stake room)
         (js_size (r_players room) + 1) (r_settings room)
     else if js_size (r_players room) >=? r_maxPlayers room
          then RoomManager.JoinFailure "Room is full"
          else RoomManager.JoinFailure "Game has already started").
Proof.
  intros Hroom. unfold RoomManager.joinRoom, isAvailable. rewrite Hroom.
  destruct (Z.geb_spec (js_size (r_players room)) (r_maxPlayers room)),
           (Z.ltb_spec (js_size (r_players room)) (r_maxPlayers room));
    try lia; destruct (r_gameStarted room); done.
Qed.

(** The tests of the rooms of the model are the tests of the code at
    an integer limit. *)
Lemma sizeAtLeast_limitOf (room : Room) (size : Z) :
  sizeAtLeast size (limitOf room) = (size >=? r_maxPlayers room)
  ∧ sizeBelow size (limitOf room) = (size <? r_maxPlayers room).
Proof.
  unfold sizeAtLeast, sizeBelow, limitOf, Qle_bool. simpl.
  rewrite !Z.mul_1_r.
  destruct (Z.leb_spec (r_maxPlayers room) size),
           (Z.geb_spec size (r_maxPlayers room)),
           (Z.ltb_spec size (r_maxPlayers room)); (done || lia).
Qed.

Lemma isAvailable_listable (room : Room) :
  isAvailable room
  = listable (js_size (r_players room)) (limitOf room) (r_gameStarted room).
Proof.
  unfold isAvailable, listable.
  by rewrite (proj2 (sizeAtLeast_limitOf room _)).
Qed.

Lemma joinRoom_refusal (playerId roomCode : string) (w : World) (room : Room) :
  rooms w !! roomCode = Some room →
  (RoomManager.joinRoom playerId roomCode w).1
  = match joinRefusal (js_size (r_players room)) (limitOf room)
                      (r_gameStarted room) with
    | Some message => RoomManager.JoinFailure message
    | None =>
        RoomManager.JoinSuccess playerId (r_name room) (r_hostName room)
          (r_maxPlayers room) (r_gameType room) (r_stake room)
          (js_size (r_players room) + 1) (r_settings room)
    end.
Proof.
  intros Hroom. unfold RoomManager.joinRoom, joinRefusal.
  rewrite Hroom, (proj1 (sizeAtLeast_limitOf room _)).
  by repeat case_match.
Qed.

(** X13. Listing and joining, whatever [maxPlayers] holds. A room that
    [getAvailableRooms] lists is a room that [joinRoom] accepts,
    whatever the player id generated. The converse holds when
    [maxPlayers] compares as a number: a room that [joinRoom] accepts
    passes the test of the listing. It fails when [maxPlayers] compares
    as NaN, as [undefined] does for a create request without the field:
    such a room is never listed and never full, and in the lobby
    [joinRoom] accepts it at any size. *)
Theorem listed_rooms_are_joinable
    (w : World) (s : RoomSummary) (size : Z) (maxPlayers : Limit)
    (gameStarted : bool) :
  (s ∈ getAvailableRooms w →
   ∃ c room,
     rooms w !! c = Some room ∧ s = summary room
     ∧ ∀ playerId,
         (RoomManager.joinRoom playerId c w).1
         = RoomManager.JoinSuccess playerId (r_name room) (r_hostName room)
             (r_maxPlayers room) (r_gameType room) (r_stake room)
             (js_size (r_players room) + 1) (r_settings room))
  ∧ (listable size maxPlayers gameStarted = true →
     joinRefusal size maxPlayers gameStarted = None)
  ∧ (maxPlayers ≠ NaN →
     joinRefusal size maxPlayers gameStarted = None →
     listable size maxPlayers gameStarted = true)
  ∧ (listable size NaN gameStarted = false
     ∧ joinRefusal size NaN gameStarted
       = if gameStarted then Some "Game has already started"%string else None).
Proof.
  assert (∀ n m b, listable n m b = true → joinRefusal n m b = None)
    as Hlisted.
  { intros n m b. unfold listable, joinRefusal, sizeBelow, sizeAtLeast.
    destruct b, m as [x| | |]; cbn; try done.
    by destruct (Qle_bool x (inject_Z n)). }
  split; [|split; [apply Hlisted|split]].
  - unfold getAvailableRooms. rewrite list_elem_of_fmap.
    intros (room & -> & [Havail Hin]%list_elem_of_filter).
    apply list_elem_of_fmap in Hin as ([c room'] & -> & Hin).
    apply elem_of_map_to_list in Hin. exists c, room'.
    split; [done|]. split; [done|]. intros playerId.
    rewrite (joinRoom_refusal _ _ _ _ Hin). cbn in Havail.
    rewrite isAvailable_listable in Havail. by rewrite (Hlisted _ _ _ Havail).
  - intros Hm. unfold listable, joinRefusal, sizeBelow, sizeAtLeast.
    destruct gameStarted, maxPlayers as [x| | |]; cbn; try done;
      by destruct (Qle_bool x (inject_Z size)).
  - unfold listable. cbn. by rewrite andb_false_r.
Qed.

(** ** The host and the game *)

(** X14. The actions of the host, startGame, callNumber and
    updateSettings, are dropped without a word when the sender is not
    the host of the room, or when the room does not exist: neither the
    state nor the outbox changes, and the sender is told nothing. *)
Theorem host_actions_of_others_are_dropped
    (socket : Socket) (roomCode : string) (o : Server.Oracle)
    (c : Server.Conn) (w : World) (type : string)
    (playerId playerName msg pattern : option string) (number : option Z)
    (ready : option bool) (settings : option Server.SettingsPatch) :
  (∀ room, rooms w !! roomCode = Some room → playerId ≠ Some (r_hostId room)) →
  type ∈ ["startGame"; "callNumber"; "updateSettings"]%string →
  Server.handleMessage socket roomCode o
    (Server.mkData type playerId playerName msg number pattern ready settings)
    c w
  = (c, w).
Proof.
  intros Hother Htype.
  assert (∀ room, rooms w !! roomCode = Some room →
            bool_decide (Some (r_hostId room) = playerId) = false) as Hno.
  { intros room Hroom. apply bool_decide_eq_false_2. intros Heq.
    by apply (Hother room Hroom). }
  unfold Server.handleMessage, RoomManager.getRoom.
  repeat (apply elem_of_cons in Htype as [->|Htype]);
    [..|by apply not_elem_of_nil in Htype]; simpl;
    destruct (rooms w !! roomCode) as [room|] eqn:Hroom; try done;
    by rewrite (Hno room).
Qed.

(** The theorem at the player B, who asks to start the game of A. *)
Lemma host_actions_of_others_are_dropped_witness :
  Server.handleMessage 2%nat Scenario.code Scenario.oracle
    (Server.mkData "startGame" (Some "B"%string) None None None None None None)
    Server.newConn twoJoined
  = (Server.newConn, twoJoined).
Proof.
  apply host_actions_of_others_are_dropped.
  - assert (rooms twoJoined !! Scenario.code
            = Some (Scenario.theRoom twoJoined)) as Hthe
      by (vm_compute; reflexivity).
    intros room Hroom.
    replace room with (Scenario.theRoom twoJoined) by congruence.
    vm_compute. discriminate.
  - apply (bool_decide_unpack _). vm_compute. exact I.
Defined.

(** X15. When the host starts the game of a room in the lobby, the room
    is marked as started and nothing else of it changes, and the
    gameStarted message with the board goes to every member whose socket
    is open, the host included. In every state in which the room is
    marked as started a startGame is dropped, whoever sends it: neither
    the state nor the outbox changes; and the HTTP join of such a room,
    if it is not full, answers that the game has already started. The
    mark does not last for ever: a claimWin with a known pattern puts the
    room back into the lobby, where the host can start again. *)
Theorem startGame_needs_the_lobby
    (socket : Socket) (roomCode : string) (o : Server.Oracle)
    (c : Server.Conn) (w : World) (room : Room)
    (playerId playerName msg pattern : option string) (number : option Z)
    (ready : option bool) (settings : option Server.SettingsPatch)
    (joiner : string) :
  rooms w !! roomCode = Some room →
  (r_gameStarted room = false →
   (Server.handleMessage socket roomCode o
      (Server.mkData "startGame" (Some (r_hostId room)) playerName msg number
                     pattern ready settings) c w).2
   = add_outbox
       (deliveries (gameStarted (r_gameType room) (Server.o_board o) (now w))
                   (openSockets w) None (r_players room))
       (set_rooms (<[roomCode := set_gameStarted true room]> (rooms w)) w))
  ∧ (r_gameStarted room = true →
     Server.handleMessage socket roomCode o
       (Server.mkData "startGame" playerId playerName msg number pattern ready
                      settings) c w
     = (c, w)
     ∧ (js_size (r_players room) < r_maxPlayers room →
        (RoomManager.joinRoom joiner roomCode w).1
        = RoomManager.JoinFailure "Game has already started"))
  ∧ (GameManager.includes pattern = true →
     rooms (Server.handleMessage socket roomCode o
              (Server.mkData "claimWin" playerId playerName msg number pattern
                             ready settings) c w).2 !! roomCode
     = Some (set_gameStarted false room)).
Proof.
  intros Hroom. split; [|split].
  - intros Hlobby. unfold Server.handleMessage, RoomManager.getRoom. simpl.
    rewrite Hroom, Hlobby, bool_decide_eq_true_2 by done. simpl.
    rewrite server_broadcast_spec. simpl. by rewrite lookup_insert_eq.
  - intros Hstarted. split.
    + unfold Server.handleMessage, RoomManager.getRoom. simpl.
      rewrite Hroom, Hstarted. simpl. by rewrite andb_false_r.
    + intros Hsize. rewrite (joinRoom_success_iff _ _ _ _ Hroom).
      unfold isAvailable. rewrite Hstarted. cbn.
      destruct (Z.geb_spec (js_size (r_players room)) (r_maxPlayers room));
        [lia | done].
  - intros Hpattern. rewrite claimWin_outcome, Hpattern, Hroom. cbn.
    apply lookup_insert_eq.
Qed.

(** The theorem at the room of A and B after A has started the game: a
    second startGame of A is dropped. *)
Lemma startGame_needs_the_lobby_witness :
  rooms twoStarted !! Scenario.code = Some (Scenario.theRoom twoStarted)
  ∧ Server.handleMessage 1%nat Scenario.code Scenario.oracle
      (Server.mkData "startGame" (Some "A"%string) None None None None None
                     None) Server.newConn twoStarted
    = (Server.newConn, twoStarted).
Proof.
  assert (rooms twoStarted !! Scenario.code
          = Some (Scenario.theRoom twoStarted)) as Hroom
    by (vm_compute; reflexivity).
  split; [exact Hroom|].
  destruct (startGame_needs_the_lobby
              1%nat Scenario.code Scenario.oracle Server.newConn twoStarted
              (Scenario.theRoom twoStarted) (Some "A"%string) None None None
              None None None "uuid-9" Hroom) as (_ & Hdropped & _).
  apply Hdropped. vm_compute. reflexivity.
Defined.

(** ** Leaving and coming back *)

Lemma room_eq (room room' : Room) :
  sameIdentity room room' →
  r_hostId room' = r_hostId room → r_hostName room' = r_hostName room →
  r_players room' = r_players room →
  r_gameStarted room' = r_gameStarted room →
  r_settings room' = r_settings room →
  room' = room.
Proof.
  destruct room, room'. unfold sameIdentity. cbn.
  intros (?&?&?&?&?&?&?) ?????. by subst.
Qed.

(** X16. Removing a player who is not in the room leaves the room as it
    is, players, host and all, and sends nothing; the player is dropped
    from the presence directory all the same, and when the room is
    empty one more eviction check is armed for it. *)
Theorem leave_of_absent_player
    (c playerId : string) (w : World) (room : Room) :
  rooms w !! c = Some room →
  playersOk room →
  playerId ∉ js_keys (r_players room) →
  let w' := RoomManager.removePlayerFromRoom c playerId w in
  rooms w' = rooms w ∧ roomCodes w' = roomCodes w ∧ outbox w' = outbox w
  ∧ gameManager w' = GameManager.removePlayer playerId (gameManager w)
  ∧ timers w'
    = timers w ++ (if decide (r_players room = [])
                   then [(now w + RoomManager.evictionDelay, c)] else []).
Proof.
  intros Hroom Hok Habsent w'.
  destruct (removePlayerFromRoom_core c playerId w room Hroom)
    as (room' & Hrooms & Hcodes & _ & _ & Hg & Hid & Hgs & Hst & _ & Hsame
        & _ & Htimers & _).
  fold w' in Hrooms, Hcodes, Hg, Htimers, Hsame.
  rewrite (js_delete_absent _ _ Habsent) in Hsame, Htimers.
  destruct Hsame as (Hps & Hhost & Hname & Hout).
  { destruct (decide (r_players room = [])) as [|Hsome]; [by right|]. left.
    intros ->. destruct Hok as (_ & _ & Hpresent). by apply Habsent, Hpresent. }
  split; [|done]. rewrite Hrooms. apply insert_id.
  by rewrite Hroom, (room_eq room room').
Qed.

(** The theorem at the room of the session and a player Z who never
    joined. *)
Lemma leave_of_absent_player_witness :
  rooms sessionWorld !! Scenario.code = Some sessionRoom
  ∧ rooms (RoomManager.removePlayerFromRoom Scenario.code "Z" sessionWorld)
    = rooms sessionWorld.
Proof.
  assert (rooms sessionWorld !! Scenario.code = Some sessionRoom) as Hroom
    by (vm_compute; reflexivity).
  split; [exact Hroom|].
  refine (proj1 (leave_of_absent_player Scenario.code "Z" sessionWorld
                   sessionRoom Hroom _ _)).
  - assert (rooms (run session (initialWorld [])) !! Scenario.code
            = Some sessionRoom) as Hrun by (vm_compute; reflexivity).
    destruct (Inv_run session _ (Inv_initial [])) as (_ & _ & Hplayers).
    exact (Hplayers Scenario.code sessionRoom Hrun).
  - apply (bool_decide_unpack _). vm_compute. exact I.
Defined.

(** X17. A player who is not yet in a room that holds others joins it
    over a socket, and the connection ends: the rooms are again what
    they were before the join, no eviction check is armed, the player is
    gone from the presence directory, and the player stays counted in
    the total of players. *)
Theorem join_then_disconnect_restores_room
    (socket : Socket) (roomCode playerId : string) (o : Server.Oracle)
    (c : Server.Conn) (w : World) (room : Room)
    (playerName msg pattern : option string) (number : option Z)
    (ready : option bool) (settings : option Server.SettingsPatch) :
  rooms w !! roomCode = Some room →
  playersOk room →
  r_players room ≠ [] →
  playerId ∉ js_keys (r_players room) →
  playerId ≠ ""%string →
  let joined :=
    Server.handleMessage socket roomCode o
      (Server.mkData "join" (Some playerId) playerName msg number pattern
                     ready settings) c w in
  let w' := Server.handleClose roomCode joined.1 joined.2 in
  rooms w' = rooms w ∧ roomCodes w' = roomCodes w ∧ timers w' = timers w
  ∧ GameManager.onlinePlayers (gameManager w')
    = delete playerId (GameManager.onlinePlayers (gameManager w))
  ∧ GameManager.totalPlayers (gameManager w')
    = GameManager.totalPlayers (gameManager w) + 1.
Proof.
  intros Hroom Hok Hsome Habsent Hid joined w'.
  set (name := default ("Player " +:+ String.substring 0 8 playerId)%string
                       (truthy playerName)).
  set (w1 := RoomManager.addPlayerToRoom roomCode playerId socket name w).
  destruct (addPlayerToRoom_core roomCode playerId socket name w room Hroom)
    as (room1 & Hrooms1 & Hcodes1 & Htimers1 & Hnow1 & _ & _ & Hg1 & Hid1
        & Hgs1 & Hst1 & Hhost1 & Hps1 & _).
  fold w1 in Hrooms1, Hcodes1, Htimers1, Hnow1, Hg1.
  assert (rooms w1 !! roomCode = Some room1) as Hroom1
    by (rewrite Hrooms1; apply lookup_insert_eq).
  (* the state after the join differs from [w1] by its outbox *)
  assert (∃ l, joined = (Server.mkConn (Some playerId) name, add_outbox l w1))
    as (l & Hjoined).
  { unfold joined, Server.handleMessage, RoomManager.getRoom. simpl.
    rewrite decide_False by done. simpl. fold name. fold w1. rewrite Hroom1.
    rewrite server_broadcast_spec. simpl. rewrite Hroom1.
    match goal with
    | |- context [send ?s ?m w1] =>
        change (send s m w1) with (add_outbox [(s, m)] w1)
    end.
    rewrite add_outbox_app. eauto. }
  assert ((js_size (r_players room) =? 0) = false) as Hnonempty.
  { apply Z.eqb_neq. by rewrite js_size_nil. }
  rewrite Hnonempty in Hhost1.
  assert (playerId ≠ r_hostId room) as Hnothost.
  { intros ->. destruct Hok as (_ & _ & Hpresent). by apply Habsent, Hpresent. }
  unfold w'. rewrite Hjoined. unfold Server.handleClose. simpl.
  rewrite decide_False by done.
  set (w2 := RoomManager.removePlayerFromRoom roomCode playerId
               (add_outbox l w1)).
  destruct (removePlayerFromRoom_core roomCode playerId (add_outbox l w1)
              room1 Hroom1)
    as (room2 & Hrooms2 & Hcodes2 & _ & _ & Hg2 & Hid2 & Hgs2 & Hst2 & _
        & Hsame & _ & Htimers2 & _).
  fold w2 in Hrooms2, Hcodes2, Hg2, Htimers2, Hsame.
  rewrite Hps1, (js_delete_set_absent _ _ _ Habsent) in Hsame, Htimers2.
  destruct Hsame as (Hps2 & Hhost2 & Hname2 & _);
    [left; by rewrite Hhost1|].
  assert (room2 = room) as ->.
  { apply room_eq; [by eapply sameIdentity_trans|..]; try congruence.
    unfold RoomManager.addPlayerToRoom in w1.
    (* the host name of a room that is not empty is left alone by a join *)
    assert (r_hostName room1 = r_hostName room); [|congruence].
    assert (Some room1 = Some
              (set_players
                 (js_set playerId
                    (mkPlayer playerId name socket false false 0)
                    (r_players room)) room)) as [= ->]; [|done].
    rewrite <- Hroom1. unfold w1. rewrite Hroom, Hnonempty.
    rewrite decide_False by done. simpl. by rewrite lookup_insert_eq. }
  simpl in Hrooms2, Hcodes2, Hg2, Htimers2.
  rewrite Hrooms1, insert_insert_eq, (insert_id _ _ _ Hroom) in Hrooms2.
  rewrite decide_False, app_nil_r in Htimers2 by done.
  match goal with
  | |- context [Server.broadcastToRoom ?rc ?m ?ex w2] =>
      destruct (server_broadcast_frame rc m ex w2) as (l' & ->)
  end.
  simpl. rewrite Hrooms2, Hcodes2, Htimers2, Hg2. simpl. rewrite Hg1. simpl.
  repeat split; try done. by rewrite delete_insert_eq.
Qed.

(** The theorem at the room of A and B: C joins on socket 3 and the
    connection ends. *)
Lemma join_then_disconnect_restores_room_witness :
  rooms twoJoined !! Scenario.code = Some (Scenario.theRoom twoJoined)
  ∧ rooms (Server.handleClose Scenario.code
             (Server.handleMessage 3%nat Scenario.code Scenario.oracle
                (Server.mkData "join" (Some "C"%string) None None None None
                               None None) Server.newConn twoJoined).1
             (Server.handleMessage 3%nat Scenario.code Scenario.oracle
                (Server.mkData "join" (Some "C"%string) None None None None
                               None None) Server.newConn twoJoined).2)
    = rooms twoJoined.
Proof.
  assert (rooms twoJoined !! Scenario.code
          = Some (Scenario.theRoom twoJoined)) as Hroom
    by (vm_compute; reflexivity).
  assert (rooms (run (take 6 session) (initialWorld [])) !! Scenario.code
          = Some (Scenario.theRoom twoJoined)) as Hrun
    by (vm_compute; reflexivity).
  assert (playersOk (Scenario.theRoom twoJoined)) as Hok.
  { destruct (Inv_run (take 6 session) _ (Inv_initial []))
      as (_ & _ & Hplayers).
    exact (Hplayers Scenario.code (Scenario.theRoom twoJoined) Hrun). }
  assert (r_players (Scenario.theRoom twoJoined) ≠ []) as Hsome
    by (vm_compute; discriminate).
  assert ("C"%string ∉ js_keys (r_players (Scenario.theRoom twoJoined)))
    as Habsent by (apply (bool_decide_unpack _); vm_compute; exact I).
  assert ("C"%string ≠ ""%string) as Hid by discriminate.
  split; [exact Hroom|].
  exact (proj1 (join_then_disconnect_restores_room
                  3%nat Scenario.code "C" Scenario.oracle Server.newConn
                  twoJoined (Scenario.theRoom twoJoined)
                  None None None None None None
                  Hroom Hok Hsome Habsent Hid)).
Defined.

(** The theorem at the code that a create request with the body [null]
    has left behind: a later create request draws it again and goes on
    to the next draws, and the code is still in use five minutes
    later. *)
Lemma rooms_live_under_registered_codes_witness :
  let w := run [HttpCreateRoomNull [0; 1 # 12]%Q] (initialWorld []) in
  let w' := run [HttpCreateRoom "uuid-room" "uuid-host"
                   [0; 1 # 12; 1 # 12; 0]%Q
                   (RoomManager.mkCreateData "Hana" "Friday" 4 "75ball" 100);
                 Tick 300000] w in
  roomCodes w' !! Scenario.code = Some Scenario.code
  ∧ rooms w' !! Scenario.code = None.
Proof.
  refine (proj2 (proj2 (rooms_live_under_registered_codes
                          [HttpCreateRoomNull [0; 1 # 12]%Q] _ []
                          Scenario.code)) _ _).
  - apply (bool_decide_unpack _). vm_compute. exact I.
  - vm_compute. reflexivity.
Defined.

(** The theorem at the room of A and B, when B sends a chat message:
    it is sent to the socket of A, which is open and of the room. *)
Lemma messages_stay_in_the_room_witness :
  ∃ sent,
    outbox (Server.handleEvent 2%nat Scenario.code Scenario.oracle
              (Some (Scenario.message "chat" "B")) Server.newConn twoJoined).2
    = outbox twoJoined ++ sent
    ∧ ∀ e, e ∈ sent →
           e.1 = 2%nat
           ∨ (e.1 ∈ openSockets twoJoined
              ∧ e.1 ∈ memberSockets Scenario.code
                        (Server.handleEvent 2%nat Scenario.code Scenario.oracle
                           (Some (Scenario.message "chat" "B")) Server.newConn
                           twoJoined).2).
Proof.
  exact (proj1 (messages_stay_in_the_room
                  2%nat Scenario.code Scenario.oracle
                  (Some (Scenario.message "chat" "B")) Server.newConn
                  twoJoined)).
Defined.

(** The theorem at the room of A and B, which is listed: the join
    answers with the identifier generated and two players counted
    already. *)
Lemma listed_rooms_are_joinable_witness :
  getAvailableRooms twoJoined = [summary (Scenario.theRoom twoJoined)]
  ∧ ∃ c room,
      rooms twoJoined !! c = Some room
      ∧ summary (Scenario.theRoom twoJoined) = summary room
      ∧ ∀ playerId,
          (RoomManager.joinRoom playerId c twoJoined).1
          = RoomManager.JoinSuccess playerId (r_name room) (r_hostName room)
              (r_maxPlayers room) (r_gameType room) (r_stake room)
              (js_size (r_players room) + 1) (r_settings room).
Proof.
  assert (getAvailableRooms twoJoined = [summary (Scenario.theRoom twoJoined)])
    as Hlist by (vm_compute; reflexivity).
  split; [exact Hlist|].
  apply (listed_rooms_are_joinable
           twoJoined (summary (Scenario.theRoom twoJoined)) 0 NaN false).
  rewrite Hlist. apply list_elem_of_here.
Defined.

(** ** Who becomes host on joining *)

(** X18. [addPlayerToRoom] on a room that is there stores the player
    under its id, with the name and the socket given, and keeps every
    other player as it was. The player becomes host, and the room takes
    its id and name as those of the host, exactly when the room was
    empty; a player who joins a room that holds someone leaves the host
    as it is. The room grows by one player unless the id was there
    already, in which case the player is replaced in place. *)
Theorem addPlayerToRoom_sets_host_of_empty_room
    (c playerId : string) (socket : Socket) (playerName : string)
    (w : World) (room : Room) :
  rooms w !! c = Some room →
  let w' := RoomManager.addPlayerToRoom c playerId socket playerName w in
  ∃ room',
    rooms w' !! c = Some room'
    ∧ r_hostId room' = (if decide (r_players room = []) then playerId
                        else r_hostId room)
    ∧ r_hostName room' = (if decide (r_players room = []) then playerName
                          else r_hostName room)
    ∧ js_get playerId (r_players room')
      = Some (mkPlayer playerId playerName socket
                       (bool_decide (playerId = r_hostId room')) false 0)
    ∧ (∀ k, k ≠ playerId →
            js_get k (r_players room') = js_get k (r_players room))
    ∧ js_keys (r_players room')
      = (if decide (playerId ∈ js_keys (r_players room))
         then js_keys (r_players room)
         else js_keys (r_players room) ++ [playerId])
    ∧ GameManager.onlinePlayers (gameManager w') !! playerId
      = Some (GameManager.mkPlayer playerId playerName socket false 0 [] []
                                   (now w)).
Proof.
  intros Hroom w'. unfold w', RoomManager.addPlayerToRoom. rewrite Hroom.
  destruct (decide (r_players room = [])) as [Hnil|Hsome].
  - assert ((js_size (r_players room) =? 0) = true) as ->.
    { apply Z.eqb_eq. by rewrite js_size_nil. }
    simpl. rewrite !lookup_insert_eq. eexists. split; [reflexivity|]. simpl.
    rewrite js_get_set_eq, js_keys_set.
    split; [done|]. split; [done|].
    split; [by rewrite bool_decide_eq_true_2|].
    split; [|done]. intros k Hne. by apply js_get_set_ne.
  - assert ((js_size (r_players room) =? 0) = false) as ->.
    { apply Z.eqb_neq. by rewrite js_size_nil. }
    destruct (decide (r_hostId room = playerId)) as [Hhost|Hhost]; simpl;
      rewrite !lookup_insert_eq; (eexists; split; [reflexivity|]); simpl;
      rewrite js_get_set_eq, js_keys_set;
      (split; [done|]); (split; [done|]); (split; [|split; [|done]]).
    + by rewrite bool_decide_eq_true_2.
    + intros k Hne. by apply js_get_set_ne.
    + by rewrite bool_decide_eq_false_2.
    + intros k Hne. by apply js_get_set_ne.
Qed.

(** The theorem at the room of A and B, when C joins: A stays host. *)
Lemma addPlayerToRoom_sets_host_of_empty_room_witness :
  rooms twoJoined !! Scenario.code = Some (Scenario.theRoom twoJoined)
  ∧ ∃ room',
      rooms (RoomManager.addPlayerToRoom Scenario.code "C" 3%nat "Chaltu"
                                         twoJoined) !! Scenario.code
      = Some room'
      ∧ r_hostId room' = "A"%string.
Proof.
  assert (rooms twoJoined !! Scenario.code
          = Some (Scenario.theRoom twoJoined)) as Hroom
    by (vm_compute; reflexivity).
  split; [exact Hroom|].
  destruct (addPlayerToRoom_sets_host_of_empty_room
              Scenario.code "C" 3%nat "Chaltu" twoJoined
              (Scenario.theRoom twoJoined) Hroom)
    as (room' & Hroom' & Hhost & _).
  exists room'. split; [exact Hroom'|].
  rewrite Hhost. vm_compute. reflexivity.
Defined.
